(** * langchain-extract: prompt assembly, query aggregation and the two
    schema-checked endpoints

    A shallow embedding of [backend/server/query_analysis.py] and
    [backend/server/main.py].  Python values that travel through the
    service as parsed JSON are modelled by the inductive type [json];
    [json.dumps] is modelled for that type, with and without
    [sort_keys=True].  [ChatPromptTemplate.from_messages] is modelled
    with the f-string parse of the texts it is given.  The other
    external collaborators (the JSON-Schema validator, the schema
    translator, the model client) are section variables of
    [Module Server]. *)

From Stdlib Require Import Ascii String ZArith List Sorted.
From stdpp Require Import base decidable option list sets gmap strings pretty.

(** ** JSON values *)

Module Json.

(** A Python value as produced by a JSON parser.  Numbers are the
    integers; strings are sequences of code points below 256; a [dict]
    is the list of its items in insertion order (a real [dict] never
    repeats a key). *)
#[local] Unset Elimination Schemes.
Inductive json : Type :=
  | JNull
  | JBool (b : bool)
  | JInt (n : Z)
  | JString (s : string)
  | JArray (items : list json)
  | JObject (members : list (string * json)).
#[local] Set Elimination Schemes.

(** [dct[key]] on such a dict, [None] standing for [KeyError]. *)
Fixpoint assoc (key : string) (members : list (string * json)) : option json :=
  match members with
  | [] => None
  | (k, v) :: rest => if String.eqb k key then Some v else assoc key rest
  end.

(** *** Strings: [json.encoder.py_encode_basestring_ascii] *)

Definition hex_digit (n : N) : ascii :=
  match n with
  | 0 => "0" | 1 => "1" | 2 => "2" | 3 => "3" | 4 => "4" | 5 => "5"
  | 6 => "6" | 7 => "7" | 8 => "8" | 9 => "9" | 10 => "a" | 11 => "b"
  | 12 => "c" | 13 => "d" | 14 => "e" | _ => "f"
  end%N%char.

(** ['\\u{0:04x}'.format(n)] for a code point below 256. *)
Definition unicode_escape (c : ascii) : string :=
  let n := N_of_ascii c in
  String "\" (String "u" (String "0" (String "0"
    (String (hex_digit (n / 16)) (String (hex_digit (n mod 16)) EmptyString))))).

Definition backslash (c : ascii) : string := String "\" (String c EmptyString).

(** The double quote, code point 34. *)
Definition dquote : ascii := "034".

(** One character through [ESCAPE_ASCII] / [ESCAPE_DCT]: the seven
    short escapes, [\uXXXX] for everything outside [' '..'~'], the
    character itself otherwise. *)
Definition escape_char (c : ascii) : string :=
  let n := N_of_ascii c in
  if (n =? 34)%N then backslash dquote
  else if (n =? 92)%N then backslash "\"
  else if (n =? 8)%N then backslash "b"
  else if (n =? 12)%N then backslash "f"
  else if (n =? 10)%N then backslash "n"
  else if (n =? 13)%N then backslash "r"
  else if (n =? 9)%N then backslash "t"
  else if ((n <? 32) || (126 <? n))%N then unicode_escape c
  else String c EmptyString.

Fixpoint escape_body (s : string) : string :=
  match s with
  | EmptyString => EmptyString
  | String c rest => escape_char c +:+ escape_body rest
  end.

Definition encode_basestring_ascii (s : string) : string :=
  String dquote (escape_body s +:+ String dquote EmptyString).

(** [', '.join(parts)] *)
Fixpoint join (sep : string) (parts : list string) : string :=
  match parts with
  | [] => EmptyString
  | [p] => p
  | p :: rest => p +:+ sep +:+ join sep rest
  end.

(** *** [sorted(dct.items())]

    Keys of a dict are pairwise distinct, so ordering the items is
    ordering them by key; strings compare by code point.  The sort is a
    stable insertion sort. *)
Section SortItems.
Context {V : Type}.

Fixpoint insert_item (kv : string * V) (sorted : list (string * V)) : list (string * V) :=
  match sorted with
  | [] => [kv]
  | kv' :: rest =>
      if String.leb (fst kv) (fst kv') then kv :: sorted
      else kv' :: insert_item kv rest
  end.

Definition sort_items (items : list (string * V)) : list (string * V) :=
  foldr insert_item [] items.

(** The order on items that [sort_items] establishes. *)
Definition key_le (kv kv' : string * V) : Prop :=
  String.leb (fst kv) (fst kv') = true.
End SortItems.

(** *** [json.dumps(obj, sort_keys=...)]

    Default separators [(', ', ': ')], [ensure_ascii=True].  The values
    of a dict are encoded member by member and the encoded members are
    ordered afterwards; [dumps_object_sort_first] shows that this is the
    encoder's "order the items, then encode each". *)
Definition encode_member (kv : string * string) : string :=
  encode_basestring_ascii (fst kv) +:+ ": " +:+ snd kv.

Fixpoint dumps (sort_keys : bool) (obj : json) : string :=
  match obj with
  | JNull => "null"
  | JBool true => "true"
  | JBool false => "false"
  | JInt n => pretty n
  | JString s => encode_basestring_ascii s
  | JArray items => "[" +:+ join ", " (map (dumps sort_keys) items) +:+ "]"
  | JObject members =>
      let encoded := map (fun kv => (fst kv, dumps sort_keys (snd kv))) members in
      let ordered := if sort_keys then sort_items encoded else encoded in
      "{" +:+ join ", " (map encode_member ordered) +:+ "}"
  end.

End Json.

Import Json.

(** ** Exceptions and calls to collaborators *)

Module Effects.

(** The exception classes the handlers tell apart:
    [jsonschema.exceptions.ValidationError] (caught), its sibling
    [jsonschema.exceptions.SchemaError], [fastapi.HTTPException] (raised),
    and every other class. *)
Inductive exception : Type :=
  | ValidationError (message : string)
  | SchemaError (message : string)
  | HTTPException (status_code : Z) (detail : string)
  | OtherError (class_name message : string).

Inductive outcome (A : Type) : Type :=
  | Returned (value : A)
  | Raised (e : exception).
Arguments Returned {A} value.
Arguments Raised {A} e.

(** A handler runs against a log of the calls made to collaborators so
    far and leaves the log extended by its own calls. *)
Definition M (call A : Type) : Type := list call → list call * outcome A.

Section Monad.
Context {call : Type}.

Definition ret {A} (a : A) : M call A := fun log => (log, Returned a).

Definition raise {A} (e : exception) : M call A := fun log => (log, Raised e).

Definition bind {A B} (m : M call A) (k : A → M call B) : M call B :=
  fun log =>
    match m log with
    | (log', Returned a) => k a log'
    | (log', Raised e) => (log', Raised e)
    end.

(** [try: m  except <classes chosen by handler> as e: handler e];
    [handler e = None] means no [except] clause matches [e]. *)
Definition try_except {A} (m : M call A) (handler : exception → option (M call A))
  : M call A :=
  fun log =>
    match m log with
    | (log', Returned a) => (log', Returned a)
    | (log', Raised e) =>
        match handler e with
        | Some h => h log'
        | None => (log', Raised e)
        end
    end.

(** A call to a collaborator: recorded, then answered. *)
Definition perform {A} (c : call) (answer : outcome A) : M call A :=
  fun log => (log ++ [c], answer).

(** A step that calls no collaborator but may raise. *)
Definition lift {A} (result : outcome A) : M call A :=
  fun log => (log, result).
End Monad.

(** The handlers are written with stdpp's monad notations. *)
#[global] Instance handler_ret {call} : MRet (M call) := @ret call.
#[global] Instance handler_bind {call} : MBind (M call) :=
  fun A B k m => bind m k.

End Effects.

Import Effects.

(** ** [backend/server/query_analysis.py] *)

Module QueryAnalysis.

(** [langchain_core.messages.AnyMessage]: the message classes differ in
    their [type] tag; a message carries its text and its
    [additional_kwargs] dict. *)
Inductive message_type : Type := ai | human | chat | system | function | tool.

Record AnyMessage : Type := {
  type : message_type;
  content : string;
  additional_kwargs : list (string * json)
}.

Definition AIMessage (content : string) (additional_kwargs : list (string * json)) : AnyMessage :=
  {| type := ai; content := content; additional_kwargs := additional_kwargs |}.

(** [MessageLikeRepresentation]: what [ChatPromptTemplate.from_messages]
    accepts.  The module builds three shapes: a [(role, template)]
    tuple, a message object, and [MessagesPlaceholder(variable_name)]. *)
Inductive MessageLikeRepresentation : Type :=
  | RoleTemplate (role template : string)
  | BaseMessage (message : AnyMessage)
  | MessagesPlaceholder (variable_name : string).

(** A [ChatPromptTemplate]: one entry per component, in the order
    given. *)
Record ChatPromptTemplate : Type := {
  prompt_messages : list MessageLikeRepresentation
}.

(** *** [ChatPromptTemplate.from_messages]

    The text of a [(role, text)] tuple becomes a message template: it is
    parsed as an f-string by [string.Formatter().parse], which raises
    [ValueError] on a brace that neither is doubled nor belongs to a
    replacement field.  The scanner below follows the parser of
    CPython ([MarkupIterator_next], [parse_field]) character by
    character.  What the library further requires of the names of the
    fields it finds differs between its versions and is not modelled;
    it concerns texts that hold a field, and the properties below that
    promise a template promise it for texts without a brace. *)
Inductive scan_state : Type :=
  | Literal
  | AfterOpen
  | AfterClose
  | FieldName
  | Bracket
  | Conversion
  | AfterConversion
  | FormatSpec (count : nat).

(** Inside a replacement field, before any [!] or [:]. *)
Definition field_step (c : ascii) : scan_state + string :=
  if Ascii.eqb c "{" then inr "unexpected '{' in field name"
  else if Ascii.eqb c "[" then inl Bracket
  else if Ascii.eqb c "}" then inl Literal
  else if Ascii.eqb c ":" then inl (FormatSpec 1)
  else if Ascii.eqb c "!" then inl Conversion
  else inl FieldName.

(** One character: the next state, or the message of the [ValueError]. *)
Definition scan_step (state : scan_state) (c : ascii) : scan_state + string :=
  match state with
  | Literal =>
      if Ascii.eqb c "{" then inl AfterOpen
      else if Ascii.eqb c "}" then inl AfterClose
      else inl Literal
  | AfterOpen => if Ascii.eqb c "{" then inl Literal else field_step c
  | AfterClose =>
      if Ascii.eqb c "}" then inl Literal
      else inr "Single '}' encountered in format string"
  | FieldName => field_step c
  | Bracket => if Ascii.eqb c "]" then inl FieldName else inl Bracket
  | Conversion => inl AfterConversion
  | AfterConversion =>
      if Ascii.eqb c "}" then inl Literal
      else if Ascii.eqb c ":" then inl (FormatSpec 1)
      else inr "expected ':' after conversion specifier"
  | FormatSpec count =>
      if Ascii.eqb c "{" then inl (FormatSpec (S count))
      else if Ascii.eqb c "}" then
        match count with
        | S (S below) => inl (FormatSpec (S below))
        | _ => inl Literal
        end
      else inl (FormatSpec count)
  end.

(** The end of the text: accepted in literal text only. *)
Definition scan_end (state : scan_state) : option string :=
  match state with
  | Literal => None
  | AfterOpen => Some "Single '{' encountered in format string"
  | AfterClose => Some "Single '}' encountered in format string"
  | FieldName | Bracket => Some "expected '}' before end of string"
  | Conversion => Some "end of string while looking for conversion specifier"
  | AfterConversion | FormatSpec _ => Some "unmatched '{' in format spec"
  end.

Fixpoint scan (state : scan_state) (template : string) : option string :=
  match template with
  | EmptyString => scan_end state
  | String c rest =>
      match scan_step state c with
      | inl next => scan next rest
      | inr message => Some message
      end
  end.

(** The message of the [ValueError] that parsing [template] raises,
    [None] when it parses. *)
Definition fstring_error (template : string) : option string :=
  scan Literal template.

(** The roles a [(role, text)] tuple may name. *)
Definition known_role (role : string) : bool :=
  bool_decide (role ∈ ["human"; "user"; "ai"; "assistant"; "system"]).

(** [_convert_to_message] on one component: the [ValueError] it raises,
    if any.  Message objects and placeholders are taken as they are. *)
Definition component_error (component : MessageLikeRepresentation) : option exception :=
  match component with
  | RoleTemplate role template =>
      if known_role role
      then OtherError "ValueError" <$> fstring_error template
      else Some (OtherError "ValueError" ("Unexpected message type: " +:+ role))
  | _ => None
  end.

(** The components are converted in order; the first failure is raised. *)
Fixpoint first_error (components : list MessageLikeRepresentation) : option exception :=
  match components with
  | [] => None
  | component :: rest =>
      match component_error component with
      | Some e => Some e
      | None => first_error rest
      end
  end.

Definition from_messages (messages : list MessageLikeRepresentation)
  : outcome ChatPromptTemplate :=
  match first_error messages with
  | Some e => Raised e
  | None => Returned {| prompt_messages := messages |}
  end.

Record QueryAnalysisExample : Type := {
  messages : list AnyMessage;
  output : list json
}.

Record QueryAnalysisRequest : Type := {
  request_messages : list AnyMessage;
  json_schema : json;
  instructions : option string;
  examples : option (list QueryAnalysisExample)
}.

Record QueryAnalysisResponse : Type := {
  data : list json
}.

(** *** [_deduplicate] *)

(** The body of the inner loop, on the pair [(unique, seen)]. *)
Definition deduplicate_item (state : list json * gset string) (data_item : json)
  : list json * gset string :=
  let '(unique, seen) := state in
  let serialized := dumps true data_item in
  if decide (serialized ∈ seen)
  then (unique, seen)
  else (unique ++ [data_item], {[serialized]} ∪ seen).

Definition _deduplicate (responses : list QueryAnalysisResponse) : QueryAnalysisResponse :=
  let '(unique, seen) :=
    foldl (fun state response => foldl deduplicate_item state (data response))
          ([], ∅) responses in
  {| data := unique |}.

(** *** [_make_prompt_template] *)

Definition prefix : string :=
  "You are a world class expert at converting user questions into database "
  +:+ "queries. Given a question, return a list of database queries optimized to "
  +:+ "retrieve the most relevant results.".

(** Truth value of an [Optional[str]]: [None] and the empty string are
    false. *)
Definition truthy (instructions : option string) : option string :=
  match instructions with
  | Some (String c rest) => Some (String c rest)
  | _ => None
  end.

Definition newline : string := String "010" EmptyString.

(** The [AIMessage(content="", additional_kwargs={"function_call": ...})]
    built for one example. *)
Definition function_call (example : QueryAnalysisExample) (function_name : string) : json :=
  JObject [
    ("arguments", JString (dumps false (JObject [("data", JArray (output example))])));
    ("name", JString function_name)
  ].

Definition example_call_message (example : QueryAnalysisExample) (function_name : string)
  : AnyMessage :=
  AIMessage "" [("function_call", function_call example function_name)].

(** The [if instructions: ... else: ...] statement that binds
    [system_message]. *)
Definition system_message (instructions : option string) : MessageLikeRepresentation :=
  match truthy instructions with
  | Some instructions => RoleTemplate "system" (prefix +:+ newline +:+ newline +:+ instructions)
  | None => RoleTemplate "system" prefix
  end.

(** What one iteration of the loop passes to [prompt_components.extend]. *)
Definition example_components (function_name : string) (example : QueryAnalysisExample)
  : list MessageLikeRepresentation :=
  map BaseMessage (messages example)
  ++ [BaseMessage (example_call_message example function_name)].

Definition _make_prompt_template
    (instructions : option string)
    (examples : option (list QueryAnalysisExample))
    (function_name : string) : outcome ChatPromptTemplate :=
  let system_message := system_message instructions in
  let prompt_components := [system_message] in
  let prompt_components :=
    match examples with
    | Some examples =>
        foldl (fun prompt_components example =>
                 prompt_components ++ example_components function_name example)
              prompt_components examples
    | None => prompt_components
    end in
  let prompt_components := prompt_components ++ [MessagesPlaceholder "input"] in
  from_messages prompt_components.

End QueryAnalysis.

Import QueryAnalysis.

(** ** The two endpoints *)

Module Server.

(** The dict returned by [convert_json_schema_to_openai_schema]. *)
Record OpenAIFunction : Type := {
  name : string;
  description : string;
  parameters : json
}.

Record ExtractRequest : Type := {
  text : string;
  schema : json
}.

Record ExtractResponse : Type := {
  extracted : json
}.

Inductive call : Type :=
  | CheckSchema (schema : json)
  | ConvertSchema (schema : json)
  | InvokeFnRunnable (functions : list OpenAIFunction) (prompt : ChatPromptTemplate)
                     (text : string)
  | InvokeStructuredOutput (function : OpenAIFunction) (prompt : ChatPromptTemplate)
                           (input : list AnyMessage).

(** The two tuples that [/extract_from_text] hands to
    [ChatPromptTemplate.from_messages]. *)
Definition extract_messages : list MessageLikeRepresentation :=
  [ RoleTemplate "system"
      ("You are a top-tier algorithm for extracting information from text. "
       +:+ "Only extract information that is relevant to the provided text. "
       +:+ "If no information is relevant, use the schema and output "
       +:+ "an empty list where appropriate.");
    RoleTemplate "human"
      ("I need to extract information from the following text: ```" +:+ newline
       +:+ "{text}" +:+ newline +:+ "```" +:+ newline) ].

(** The prompt of [/extract_from_text]: both texts parse, [{text}] being
    the only field. *)
Definition extract_prompt : ChatPromptTemplate :=
  {| prompt_messages := extract_messages |}.

Section Handlers.
(** [Draft202012Validator.check_schema]: [None] when it returns,
    [Some e] when it raises [e]. *)
Variable check_schema : json → option exception.
(** [extraction.utils.convert_json_schema_to_openai_schema]. *)
Variable convert_json_schema_to_openai_schema : json → outcome OpenAIFunction.
(** [create_openai_fn_runnable(functions, llm=model, prompt).invoke({"text": text})]. *)
Variable fn_runnable_invoke :
  list OpenAIFunction → ChatPromptTemplate → string → outcome json.
(** [(prompt | model.with_structured_output(function)).ainvoke({"input": messages})]. *)
Variable structured_output_ainvoke :
  OpenAIFunction → ChatPromptTemplate → list AnyMessage → outcome QueryAnalysisResponse.

Definition do_check_schema (schema : json) : M call unit :=
  perform (CheckSchema schema)
    match check_schema schema with
    | None => Returned tt
    | Some e => Raised e
    end.

(** The [try] / [except exceptions.ValidationError] block shared by
    both handlers. *)
Definition validate_or_422 (schema : json) : M call unit :=
  try_except (do_check_schema schema)
    (fun e =>
       match e with
       | ValidationError message =>
           Some (raise (HTTPException 422 ("Invalid schema: " +:+ message)))
       | _ => None
       end).

Definition extract (extract_request : ExtractRequest) : M call ExtractResponse :=
  validate_or_422 (schema extract_request) ;;
  prompt ← lift (from_messages extract_messages) ;
  openai_function ←
    perform (ConvertSchema (schema extract_request))
            (convert_json_schema_to_openai_schema (schema extract_request)) ;
  extracted_content ←
    perform (InvokeFnRunnable [openai_function] prompt (text extract_request))
            (fn_runnable_invoke [openai_function] prompt (text extract_request)) ;
  mret {| extracted := extracted_content |}.

Definition query_analyzer (request : QueryAnalysisRequest) : M call QueryAnalysisResponse :=
  let schema := json_schema request in
  validate_or_422 schema ;;
  openai_function ←
    perform (ConvertSchema schema) (convert_json_schema_to_openai_schema schema) ;
  let function_name := name openai_function in
  prompt ←
    lift (_make_prompt_template (instructions request) (examples request) function_name) ;
  perform (InvokeStructuredOutput openai_function prompt (request_messages request))
          (structured_output_ainvoke openai_function prompt (request_messages request)).
End Handlers.

End Server.

(** ** The schema translator's name rule *)

Module SchemaTranslator.

(** Modelled from the spec: [extraction.utils] is not among the sources.
    The fixed generic identifier used when a schema has no usable title. *)
Definition default_name : string := "extractor".

(** Modelled from the spec: the characters of a function-name token,
    "alphanumeric + underscore". *)
Definition is_token_char (c : ascii) : bool :=
  let n := N_of_ascii c in
  ((48 <=? n) && (n <=? 57) || (65 <=? n) && (n <=? 90)
   || (97 <=? n) && (n <=? 122) || (n =? 95))%N.

(** Modelled from the spec: a function-name token is a non-empty string
    of token characters. *)
Fixpoint all_token_chars (s : string) : bool :=
  match s with
  | EmptyString => true
  | String c rest => is_token_char c && all_token_chars rest
  end.

Definition is_function_name_token (s : string) : bool :=
  match s with
  | EmptyString => false
  | _ => all_token_chars s
  end.

(** Modelled from the spec: "non-conforming titles must be sanitized
    (strip/replace disallowed characters) deterministically"; every
    disallowed character is replaced by an underscore. *)
Fixpoint sanitize (title : string) : string :=
  match title with
  | EmptyString => EmptyString
  | String c rest => String (if is_token_char c then c else "_"%char) (sanitize rest)
  end.

(** Modelled from the spec: "the schema's declared title", a string
    under the key [title] of the schema object. *)
Definition declared_title (S : json) : option string :=
  match S with
  | JObject members =>
      match assoc "title" members with
      | Some (JString title) => Some title
      | _ => None
      end
  | _ => None
  end.

(** Modelled from the spec: "the schema's declared description if
    present; otherwise empty string". *)
Definition declared_description (S : json) : string :=
  match S with
  | JObject members =>
      match assoc "description" members with
      | Some (JString description) => description
      | _ => ""
      end
  | _ => ""
  end.

(** Modelled from the spec: [translate], the Schema Translator of
    section 4.1; the target schema becomes the single argument [data]. *)
Definition translate (S : json) : Server.OpenAIFunction :=
  {| Server.name :=
       match declared_title S with
       | Some (String c rest) => sanitize (String c rest)
       | _ => default_name
       end;
     Server.description := declared_description S;
     Server.parameters :=
       JObject [("type", JString "object");
                ("properties", JObject [("data", S)]);
                ("required", JArray [JString "data"])] |}.

End SchemaTranslator.

(** ** Reference definitions and sample inputs *)

Module Reference.

(** The canonical form of an item: its serialization with the keys of
    every object sorted. *)
Definition canonical (item : json) : string := dumps true item.

(** The aggregator as the specification words it: walking the items in
    order, an item stays and every later item with the same canonical
    form goes. *)
Fixpoint first_occurrences (items : list json) : list json :=
  match items with
  | [] => []
  | item :: later =>
      item :: filter (fun other => canonical other ≠ canonical item) (first_occurrences later)
  end.

(** The text of the system message. *)
Definition system_text (instructions : option string) : string :=
  match system_message instructions with
  | RoleTemplate _ template => template
  | _ => EmptyString
  end.

(** A text without a brace character. *)
Fixpoint brace_free (text : string) : bool :=
  match text with
  | EmptyString => true
  | String c rest => negb (Ascii.eqb c "{") && negb (Ascii.eqb c "}") && brace_free rest
  end.

(** Instructions that, when given, hold no brace character. *)
Definition no_brace (instructions : option string) : bool :=
  match instructions with
  | Some text => brace_free text
  | None => true
  end.

(** The items of all responses, in iteration order. *)
Definition all_items (responses : list QueryAnalysisResponse) : list json :=
  concat (map data responses).

End Reference.

Module Samples.

(** A string literal between double quotes, to spell encoder output. *)
Definition quoted (s : string) : string :=
  String dquote (s +:+ String dquote EmptyString).

Definition obj_a (n : Z) : json := JObject [("a", JInt n)].

(** An example whose output object lists its keys out of order. *)
Definition unsorted_example : QueryAnalysisExample :=
  {| messages := [];
     output := [JObject [("b", JInt 1); ("a", JInt 2)]] |}.

(** An example whose output objects, one nested in the other, hold
    several keys each, in order. *)
Definition sorted_example : QueryAnalysisExample :=
  {| messages := [];
     output := [JObject [("a", JInt 1);
                         ("b", JObject [("c", JNull); ("d", JInt 2)]);
                         ("e", JArray [JObject [("x", JInt 0); ("y", JInt 0)]])]] |}.

Definition hello : AnyMessage :=
  {| type := human; content := "hello"; additional_kwargs := [] |}.

Definition greeting_example : QueryAnalysisExample :=
  {| messages := [hello]; output := [obj_a 1] |}.

(** A toy validator: the schema must be an object whose [type], when
    present, is the string [object]. *)
Definition toy_check_schema (schema : json) : option exception :=
  match schema with
  | JObject members =>
      match assoc "type" members with
      | None | Some (JString "object") => None
      | Some _ => Some (ValidationError "bad type")
      end
  | _ => Some (OtherError "TypeError" "not a mapping")
  end.

(** A validator that reports a bad [type] with the sibling class
    [SchemaError]. *)
Definition schema_error_check_schema (schema : json) : option exception :=
  match schema with
  | JObject members =>
      match assoc "type" members with
      | None | Some (JString "object") => None
      | Some _ => Some (SchemaError "bad type")
      end
  | _ => Some (OtherError "TypeError" "not a mapping")
  end.

Definition bogus_schema : json := JObject [("type", JString "bogus")].
Definition object_schema : json := JObject [("type", JString "object")].

(** A toy model that answers every call with a repeated item. *)
Definition toy_structured_output (function : Server.OpenAIFunction)
    (prompt : ChatPromptTemplate) (input : list AnyMessage)
  : outcome QueryAnalysisResponse :=
  Returned {| data := [obj_a 1; obj_a 1] |}.

Definition toy_fn_runnable (functions : list Server.OpenAIFunction)
    (prompt : ChatPromptTemplate) (text : string) : outcome json :=
  Returned (JString text).

Definition toy_convert (schema : json) : outcome Server.OpenAIFunction :=
  Returned {| Server.name := "extractor";
              Server.description := "";
              Server.parameters := schema |}.

(** A translator that gives up. *)
Definition failing_convert (schema : json) : outcome Server.OpenAIFunction :=
  Raised (OtherError "ValueError" "unsupported schema").

End Samples.

(** ** Objects with their keys in order *)

Module KeyOrder.

(** The value with the members of every object put in key order, as
    [sort_keys=True] visits them. *)
Fixpoint sort_keys (obj : json) : json :=
  match obj with
  | JArray items => JArray (map sort_keys items)
  | JObject members =>
      JObject (sort_items (map (fun kv => (fst kv, sort_keys (snd kv))) members))
  | _ => obj
  end.

(** Each key is at most the next one. *)
Fixpoint in_order (keys : list string) : bool :=
  match keys with
  | key :: (next :: _) as rest => String.leb key next && in_order rest
  | _ => true
  end.

(** Every object inside the value holds its keys in order. *)
Fixpoint keys_sorted (obj : json) : bool :=
  match obj with
  | JArray items => forallb keys_sorted items
  | JObject members =>
      in_order (map fst members)
      && forallb (fun kv => keys_sorted (snd kv)) members
  | _ => true
  end.

End KeyOrder.

(** ** Reading encoder output back

    What is needed to tell that two different values never serialize to
    the same text: the inverse of [escape_char], and the character
    classes that delimit a number. *)

Module Decoding.

Definition unhex_digit (c : ascii) : option N :=
  let n := N_of_ascii c in
  if ((48 <=? n) && (n <=? 57))%N then Some (n - 48)%N
  else if ((97 <=? n) && (n <=? 102))%N then Some (n - 87)%N
  else None.

(** The character that the front of an escaped string body stands for,
    and the rest of the text; [None] at the closing quote, at the end of
    the text and on an escape the encoder never writes. *)
Definition unescape_head (s : string) : option (ascii * string) :=
  match s with
  | EmptyString => None
  | String c rest =>
      if (N_of_ascii c =? 34)%N then None
      else if (N_of_ascii c =? 92)%N then
        match rest with
        | EmptyString => None
        | String e rest =>
            let n := N_of_ascii e in
            if (n =? 34)%N then Some (dquote, rest)
            else if (n =? 92)%N then Some ("\"%char, rest)
            else if (n =? 98)%N then Some ("008"%char, rest)
            else if (n =? 102)%N then Some ("012"%char, rest)
            else if (n =? 110)%N then Some ("010"%char, rest)
            else if (n =? 114)%N then Some ("013"%char, rest)
            else if (n =? 116)%N then Some ("009"%char, rest)
            else if (n =? 117)%N then
              match rest with
              | String _ (String _ (String h1 (String h2 rest))) =>
                  match unhex_digit h1, unhex_digit h2 with
                  | Some a, Some b => Some (ascii_of_N (16 * a + b), rest)
                  | _, _ => None
                  end
              | _ => None
              end
            else None
        end
      else Some (c, rest)
  end.

Definition is_digit (c : ascii) : bool :=
  let n := N_of_ascii c in ((48 <=? n) && (n <=? 57))%N.

Fixpoint all_digits (s : string) : bool :=
  match s with
  | EmptyString => true
  | String c rest => is_digit c && all_digits rest
  end.

(** The texts that may follow a serialized value: nothing, or a text
    starting with a comma or a closing bracket or brace. *)
Definition closes (rest : string) : bool :=
  match rest with
  | EmptyString => true
  | String c _ =>
      let n := N_of_ascii c in ((n =? 44) || (n =? 93) || (n =? 125))%N
  end.

(** The kind of value a text starts: told by its first character. *)
Inductive value_kind : Type :=
  | KNull | KBool | KNumber | KString | KArray | KObject | KNone.

Definition kind_of_char (c : ascii) : value_kind :=
  let n := N_of_ascii c in
  if (n =? 110)%N then KNull
  else if ((n =? 116) || (n =? 102))%N then KBool
  else if (is_digit c || (n =? 45))%N then KNumber
  else if (n =? 34)%N then KString
  else if (n =? 91)%N then KArray
  else if (n =? 123)%N then KObject
  else KNone.

Definition kind_of (obj : json) : value_kind :=
  match obj with
  | JNull => KNull
  | JBool _ => KBool
  | JInt _ => KNumber
  | JString _ => KString
  | JArray _ => KArray
  | JObject _ => KObject
  end.

(** What follows the first element of a joined list that ends with
    [close]: the closing character, or a separator and the other
    elements. *)
Definition after_first {A} (enc : A → string) (close : ascii)
    (items : list A) (rest : string) : string :=
  match items with
  | [] => String close rest
  | _ => String "," (String " " (join ", " (map enc items) +:+ String close rest))
  end.

(** The printable ASCII characters, space to tilde. *)
Definition printable (c : ascii) : bool :=
  let n := N_of_ascii c in ((32 <=? n) && (n <=? 126))%N.

Fixpoint all_printable (s : string) : bool :=
  match s with
  | EmptyString => true
  | String c rest => printable c && all_printable rest
  end.

End Decoding.

(** * Properties *)

Import Reference Samples.

(** ** The encoder *)

Example dumps_plain :
  dumps false (JObject [("b", JInt 1); ("a", JArray [JInt (-2); JNull; JString "x\y"])])
  = "{" +:+ quoted "b" +:+ ": 1, " +:+ quoted "a" +:+ ": [-2, null, " +:+ quoted "x\\y" +:+ "]}".
Proof. vm_compute. reflexivity. Qed.

Example dumps_sorted :
  dumps true (JObject [("b", JInt 1);
                       ("a", JObject [("z", JBool true);
                                      ("y", JString (String "010" (String "233" EmptyString)))])])
  = "{" +:+ quoted "a" +:+ ": {" +:+ quoted "y" +:+ ": " +:+ quoted "\n\u00e9" +:+ ", "
        +:+ quoted "z" +:+ ": true}, " +:+ quoted "b" +:+ ": 1}".
Proof. vm_compute. reflexivity. Qed.

Section SortItemsCorrect.
Context {V : Type}.

Lemma insert_item_Permutation (kv : string * V) sorted :
  insert_item kv sorted ≡ₚ kv :: sorted.
Proof.
  induction sorted as [|kv' rest IH]; simpl; [done|].
  destruct (String.leb (fst kv) (fst kv')); [done|].
  rewrite IH. apply Permutation_swap.
Qed.

Lemma insert_item_HdRel (kv kv' : string * V) sorted :
  key_le kv' kv → HdRel key_le kv' sorted → HdRel key_le kv' (insert_item kv sorted).
Proof.
  intros Hle Hhd. destruct sorted as [|kv'' rest]; simpl; [by constructor|].
  destruct (String.leb (fst kv) (fst kv'')); constructor; [done|].
  by inversion Hhd.
Qed.

Lemma insert_item_Sorted (kv : string * V) sorted :
  Sorted key_le sorted → Sorted key_le (insert_item kv sorted).
Proof.
  induction 1 as [|kv' rest Hsorted IH Hhd]; simpl; [by repeat constructor|].
  destruct (String.leb (fst kv) (fst kv')) eqn:Hle.
  - constructor; [by constructor|by constructor].
  - constructor; [done|]. apply insert_item_HdRel; [|done].
    destruct (String.leb_total (fst kv) (fst kv')) as [Hle'|Hle']; [congruence|done].
Qed.

(** [sort_items] returns the items it was given, ordered by key. *)
Lemma sort_items_sorted (items : list (string * V)) :
  sort_items items ≡ₚ items ∧ Sorted key_le (sort_items items).
Proof.
  unfold sort_items. induction items as [|kv rest [IHperm IHsorted]]; simpl.
  - split; [done|constructor].
  - split; [by rewrite insert_item_Permutation, IHperm|by apply insert_item_Sorted].
Qed.
End SortItemsCorrect.

Section SortThenEncode.
Context {V W : Type} (g : V → W).

Let on_value (kv : string * V) : string * W := (fst kv, g (snd kv)).

Lemma insert_item_map kv sorted :
  insert_item (on_value kv) (map on_value sorted) = map on_value (insert_item kv sorted).
Proof.
  induction sorted as [|kv' rest IH]; simpl; [done|].
  destruct (String.leb (fst kv) (fst kv')); simpl; [done|].
  by rewrite IH.
Qed.

(** Ordering the encoded members is encoding the ordered members. *)
Lemma sort_items_map items :
  sort_items (map on_value items) = map on_value (sort_items items).
Proof.
  unfold sort_items. induction items as [|kv rest IH]; simpl; [done|].
  by rewrite IH, insert_item_map.
Qed.
End SortThenEncode.

Lemma dumps_object_sort_first members :
  dumps true (JObject members)
  = "{" +:+ join ", " (map (fun kv => encode_member (fst kv, dumps true (snd kv)))
                           (sort_items members)) +:+ "}".
Proof.
  simpl. rewrite (sort_items_map (dumps true)), map_map. reflexivity.
Qed.

Lemma append_cons c (s t : string) : String c s +:+ t = String c (s +:+ t).
Proof. reflexivity. Qed.

Lemma append_nil_l (t : string) : "" +:+ t = t.
Proof. reflexivity. Qed.

Lemma append_assoc (s1 s2 s3 : string) : (s1 +:+ s2) +:+ s3 = s1 +:+ (s2 +:+ s3).
Proof. induction s1 as [|c s1 IH]; [done|]. by rewrite !append_cons, IH. Qed.

(** ** The query aggregator *)

Section Deduplicate.

Lemma filter_everything {A} (P : A → Prop) `{!∀ x, Decision (P x)} (l : list A) :
  (∀ x, P x) → filter P l = l.
Proof.
  intros HP. induction l as [|x l IH]; [done|].
  by rewrite filter_cons_True, IH.
Qed.

Lemma foldl_responses (state : list json * gset string) responses :
  foldl (fun state response => foldl deduplicate_item state (data response)) state responses
  = foldl deduplicate_item state (all_items responses).
Proof.
  unfold all_items. revert state.
  induction responses as [|response rest IH]; intros state; simpl; [done|].
  by rewrite IH, foldl_app.
Qed.

(** Loop invariant of the inner loop, entered with [unique] and [seen]:
    the items appended are the first occurrences whose canonical form
    was not seen before. *)
Lemma foldl_deduplicate_item items unique (seen : gset string) :
  (foldl deduplicate_item (unique, seen) items).1
  = unique ++ filter (fun item => canonical item ∉ seen) (first_occurrences items).
Proof.
  revert unique seen.
  induction items as [|item later IH]; intros unique seen; simpl.
  { by rewrite filter_nil, app_nil_r. }
  fold (canonical item). destruct (decide (canonical item ∈ seen)) as [Hin|Hout].
  - rewrite IH, filter_cons_False by (intros Hn; by apply Hn).
    f_equal. symmetry. apply list_filter_filter_l.
    intros other Hother Heq. apply Hother. by rewrite Heq.
  - rewrite IH, filter_cons_True by done.
    rewrite <- app_assoc. simpl. do 2 f_equal.
    rewrite list_filter_filter. apply list_filter_iff.
    intros other. rewrite not_elem_of_union, not_elem_of_singleton. tauto.
Qed.

Lemma deduplicate_first_occurrences responses :
  data (_deduplicate responses) = first_occurrences (all_items responses).
Proof.
  unfold _deduplicate. rewrite foldl_responses.
  pose proof (foldl_deduplicate_item (all_items responses) [] ∅) as Hinv.
  destruct (foldl deduplicate_item ([], ∅) (all_items responses)) as [unique seen].
  simpl in *. rewrite Hinv. apply filter_everything. set_solver.
Qed.

Lemma first_occurrences_sublist items :
  first_occurrences items `sublist_of` items.
Proof.
  induction items as [|item later IH]; simpl; [done|].
  apply sublist_skip. etrans; [apply sublist_filter|done].
Qed.

Lemma first_occurrences_NoDup items :
  NoDup (canonical <$> first_occurrences items).
Proof.
  induction items as [|item later IH]; simpl; [constructor|].
  csimpl. constructor.
  - rewrite list_elem_of_fmap. intros (other & Heq & Hin).
    apply list_elem_of_filter in Hin as [Hne _]. by apply Hne.
  - eapply sublist_NoDup; [exact IH|].
    apply fmap_sublist, sublist_filter.
Qed.

(** Every item is represented in the result by the earliest item that
    has its canonical form. *)
Lemma first_occurrences_earliest items item :
  item ∈ items →
  ∃ before kept after,
    items = before ++ kept :: after
    ∧ canonical kept = canonical item
    ∧ (canonical kept ∉ canonical <$> before)
    ∧ kept ∈ first_occurrences items.
Proof.
  induction items as [|head later IH]; intros Hin; [by apply elem_of_nil in Hin|].
  destruct (decide (canonical head = canonical item)) as [Heq|Hne].
  - exists [], head, later. simpl. split_and!; [done|done|apply not_elem_of_nil|left].
  - apply elem_of_cons in Hin as [->|Hin]; [done|].
    destruct (IH Hin) as (before & kept & after & -> & Hsame & Hfresh & Hkept).
    exists (head :: before), kept, after. split_and!; [done|done| |].
    + rewrite fmap_cons, not_elem_of_cons. split; [congruence|done].
    + simpl. right. apply list_elem_of_filter. split; [congruence|done].
Qed.
End Deduplicate.

(** C1. [_deduplicate] walks the responses in order and the items of each
    response in order, identifies two items exactly when their
    serializations with recursively sorted keys are equal strings, keeps
    the first item of every canonical form and returns the kept items
    in the order in which they were first seen; on the two responses
    [[a1, a2]] and [[a1, a3]] it returns [[a1, a2, a3]]. *)
Theorem deduplicate_keeps_first_occurrences :
  (∀ responses : list QueryAnalysisResponse,
     let items := concat (map data responses) in
     let kept := data (_deduplicate responses) in
     kept = first_occurrences items
     ∧ kept `sublist_of` items
     ∧ NoDup (dumps true <$> kept)
     ∧ (∀ item, item ∈ items →
          ∃ before first after,
            items = before ++ first :: after
            ∧ dumps true first = dumps true item
            ∧ (dumps true first ∉ dumps true <$> before)
            ∧ first ∈ kept))
  ∧ _deduplicate [ {| data := [obj_a 1; obj_a 2] |}; {| data := [obj_a 1; obj_a 3] |} ]
    = {| data := [obj_a 1; obj_a 2; obj_a 3] |}.
Proof.
  split; [|vm_compute; reflexivity].
  intros responses items kept.
  assert (kept = first_occurrences items) as Hkept
    by apply deduplicate_first_occurrences.
  rewrite Hkept. split_and!.
  - reflexivity.
  - apply first_occurrences_sublist.
  - apply first_occurrences_NoDup.
  - apply first_occurrences_earliest.
Qed.

(** Two objects that differ only in the order of their keys, at any
    depth, are the same item. *)
Example deduplicate_key_order :
  _deduplicate
    [ {| data := [JObject [("a", JInt 1); ("b", JArray [JObject [("d", JInt 1); ("c", JInt 2)]])]] |};
      {| data := [JObject [("b", JArray [JObject [("c", JInt 2); ("d", JInt 1)]]); ("a", JInt 1)]] |} ]
  = {| data := [JObject [("a", JInt 1); ("b", JArray [JObject [("d", JInt 1); ("c", JInt 2)]])]] |}.
Proof. vm_compute. reflexivity. Qed.

(** ** The prompt assembler *)

Section PromptTemplate.

(** The loop over the examples appends, to whatever was assembled
    before it, the components of each example in turn. *)
Lemma foldl_extend function_name (examples : list QueryAnalysisExample)
      (prompt_components : list MessageLikeRepresentation) :
  foldl (fun prompt_components example =>
           prompt_components ++ example_components function_name example)
        prompt_components examples
  = prompt_components ++ concat (map (example_components function_name) examples).
Proof.
  revert prompt_components.
  induction examples as [|example rest IH]; intros prompt_components; simpl.
  - by rewrite app_nil_r.
  - by rewrite IH, app_assoc.
Qed.

Lemma lookup_past_prefix {A} (x y : A) (pre mid post tail : list A) :
  (x :: (pre ++ (mid ++ [y]) ++ post) ++ tail) !! (1 + length pre + length mid)%nat
  = Some y.
Proof.
  simpl. rewrite <- !app_assoc.
  rewrite lookup_app_r by lia. rewrite lookup_app_r by lia.
  replace (_ - _ - _)%nat with 0%nat by lia. reflexivity.
Qed.

Lemma system_message_text instructions :
  system_message instructions = RoleTemplate "system" (system_text instructions).
Proof. unfold system_text, system_message. by destruct (truthy instructions). Qed.

Lemma system_message_role instructions :
  ∃ template, system_message instructions = RoleTemplate "system" template.
Proof. eexists. apply system_message_text. Qed.

Lemma example_components_messages function_name examples :
  Forall (fun component => ∃ message, component = BaseMessage message)
         (concat (map (example_components function_name) examples)).
Proof.
  induction examples as [|example rest IH]; simpl; [constructor|].
  apply Forall_app. split; [|done].
  unfold example_components. apply Forall_app. split.
  - apply Forall_forall. intros component (message & <- & _)%list_elem_of_In%in_map_iff.
    by eexists.
  - repeat constructor. by eexists.
Qed.

(** Message objects and the placeholder are never refused. *)
Lemma first_error_messages middle variable_name :
  Forall (fun component => ∃ message, component = BaseMessage message) middle →
  first_error (middle ++ [MessagesPlaceholder variable_name]) = None.
Proof.
  induction 1 as [|component middle [message ->] _ IH]; [done|]. simpl. exact IH.
Qed.

(** The components [_make_prompt_template] hands to [from_messages]. *)
Lemma make_prompt_template_components instructions examples function_name :
  _make_prompt_template instructions examples function_name
  = from_messages
      (system_message instructions
       :: concat (map (example_components function_name) (default [] examples))
       ++ [MessagesPlaceholder "input"]).
Proof.
  unfold _make_prompt_template. destruct examples as [examples|]; simpl; [|done].
  by rewrite foldl_extend.
Qed.

(** [_make_prompt_template] raises exactly when the system text does not
    parse, and returns the assembled components otherwise. *)
Lemma make_prompt_template_outcome instructions examples function_name :
  _make_prompt_template instructions examples function_name
  = match fstring_error (system_text instructions) with
    | Some message => Raised (OtherError "ValueError" message)
    | None =>
        Returned
          {| prompt_messages :=
               system_message instructions
               :: concat (map (example_components function_name) (default [] examples))
               ++ [MessagesPlaceholder "input"] |}
    end.
Proof.
  rewrite make_prompt_template_components. unfold from_messages.
  rewrite system_message_text at 1. cbn [first_error component_error].
  change (known_role "system") with true. cbv iota.
  destruct (fstring_error (system_text instructions)) as [message|]; [done|].
  cbn [fmap option_fmap option_map].
  by rewrite first_error_messages by apply example_components_messages.
Qed.

Lemma make_prompt_template_returned instructions examples function_name template :
  _make_prompt_template instructions examples function_name = Returned template →
  prompt_messages template
  = system_message instructions
    :: concat (map (example_components function_name) (default [] examples))
    ++ [MessagesPlaceholder "input"].
Proof.
  rewrite make_prompt_template_outcome.
  destruct (fstring_error _); [done|]. by intros [= <-].
Qed.

Lemma make_prompt_template_returned_examples instructions examples function_name template :
  _make_prompt_template instructions (Some examples) function_name = Returned template →
  prompt_messages template
  = system_message instructions
    :: concat (map (example_components function_name) examples)
    ++ [MessagesPlaceholder "input"].
Proof. apply make_prompt_template_returned. Qed.

Lemma brace_free_scan text : brace_free text = true → scan Literal text = None.
Proof.
  induction text as [|c rest IH]; [done|]. simpl.
  intros [[Hopen Hclose]%andb_true_iff Hrest]%andb_true_iff.
  apply negb_true_iff in Hopen, Hclose. rewrite Hopen, Hclose. by apply IH.
Qed.

Lemma brace_free_app text1 text2 :
  brace_free (text1 +:+ text2) = brace_free text1 && brace_free text2.
Proof.
  induction text1 as [|c rest IH]; [done|]. rewrite append_cons. simpl.
  by rewrite IH, andb_assoc.
Qed.

Lemma system_text_brace_free instructions :
  no_brace instructions = true → brace_free (system_text instructions) = true.
Proof.
  destruct instructions as [[|c rest]|]; [done| |done].
  intros Hfree. change (brace_free (String c rest) = true) in Hfree.
  change (system_text (Some (String c rest)))
    with (prefix +:+ newline +:+ newline +:+ String c rest).
  rewrite !brace_free_app, Hfree. reflexivity.
Qed.

(** Instructions without a brace character never make the assembly fail. *)
Lemma make_prompt_template_returns instructions examples function_name :
  no_brace instructions = true →
  ∃ template, _make_prompt_template instructions examples function_name = Returned template.
Proof.
  intros Hfree. rewrite make_prompt_template_outcome.
  unfold fstring_error. rewrite brace_free_scan by by apply system_text_brace_free.
  by eexists.
Qed.

End PromptTemplate.

(** C2 as the specification states it fails: instructions with an
    unbalanced brace make [ChatPromptTemplate.from_messages] raise
    [ValueError], so no message sequence is assembled for them. *)
Lemma unbalanced_brace_no_sequence :
  _make_prompt_template (Some "use { here") (Some [greeting_example]) "f"
  = Raised (OtherError "ValueError" "expected '}' before end of string").
Proof. vm_compute. reflexivity. Qed.

(** C2, amended. For every optional instructions string, list of
    examples and function name, whenever the template is built, as it is
    for all instructions without a brace character, its sequence is the
    system message, then for each example in input order its messages
    unchanged and in order followed by the one assistant message with
    empty content and the function call synthesized for that example,
    then the placeholder for the live input, and nothing else. *)
Theorem make_prompt_template_order :
  ∀ (instructions : option string) (examples : list QueryAnalysisExample)
    (function_name : string),
    (∃ text, system_message instructions = RoleTemplate "system" text)
    ∧ (∀ template,
         _make_prompt_template instructions (Some examples) function_name = Returned template →
         prompt_messages template
         = [system_message instructions]
           ++ concat
                (map (fun example =>
                        map BaseMessage (messages example)
                        ++ [BaseMessage
                              {| type := ai;
                                 content := "";
                                 additional_kwargs :=
                                   [("function_call",
                                     JObject
                                       [("arguments",
                                         JString (dumps false
                                                    (JObject [("data", JArray (output example))])));
                                        ("name", JString function_name)])] |}])
                     examples)
           ++ [MessagesPlaceholder "input"])
    ∧ (no_brace instructions = true →
       ∃ template,
         _make_prompt_template instructions (Some examples) function_name = Returned template).
Proof.
  intros instructions examples function_name. split_and!.
  - apply system_message_role.
  - intros template Hreturned.
    by rewrite (make_prompt_template_returned _ _ _ _ Hreturned).
  - apply make_prompt_template_returns.
Qed.

Lemma make_prompt_template_order_witness :
  ∃ template,
    _make_prompt_template (Some "Be brief.") (Some [greeting_example]) "f" = Returned template
    ∧ prompt_messages template
      = [RoleTemplate "system" (prefix +:+ newline +:+ newline +:+ "Be brief.");
         BaseMessage hello;
         BaseMessage
           {| type := ai;
              content := "";
              additional_kwargs :=
                [("function_call",
                  JObject [("arguments",
                            JString (dumps false (JObject [("data", JArray [obj_a 1])])));
                           ("name", JString "f")])] |};
         MessagesPlaceholder "input"].
Proof.
  destruct (make_prompt_template_order (Some "Be brief.") [greeting_example] "f")
    as (_ & Hsequence & Hreturns).
  destruct (Hreturns eq_refl) as [template Hreturned].
  exists template. split; [exact Hreturned|].
  exact (Hsequence template Hreturned).
Defined.

(** C4 as the specification states it fails: the [arguments] string of
    the synthesized message keeps the keys of [example.output] in the
    order the objects hold them, since [json.dumps] is called without
    [sort_keys]. *)
Lemma function_call_arguments_not_sorted :
  ∃ template,
    _make_prompt_template None (Some [unsorted_example]) "f" = Returned template
    ∧ prompt_messages template !! 1%nat
      ≠ Some (BaseMessage
                (AIMessage ""
                   [("function_call",
                     JObject [("arguments",
                               JString (dumps true
                                          (JObject [("data", JArray (output unsorted_example))])));
                              ("name", JString "f")])])).
Proof. eexists. split; [vm_compute; reflexivity|]. vm_compute. discriminate. Qed.

(** C4, amended. For every example and function name, the message that
    follows the example's own messages in the assembled sequence has
    empty text content and carries, under [function_call], the name [f]
    and as [arguments] the JSON serialization of [{"data": example.output}]
    with the keys of every object in the order the object holds them. *)
Theorem function_call_message_payload :
  ∀ (instructions : option string) (before : list QueryAnalysisExample)
    (example : QueryAnalysisExample) (after : list QueryAnalysisExample)
    (function_name : string) (template : ChatPromptTemplate),
    _make_prompt_template instructions (Some (before ++ example :: after)) function_name
    = Returned template →
    prompt_messages template
    !! (1 + length (concat (map (example_components function_name) before))
        + length (messages example))%nat
    = Some (BaseMessage
              {| type := ai;
                 content := "";
                 additional_kwargs :=
                   [("function_call",
                     JObject [("arguments",
                               JString (dumps false (JObject [("data", JArray (output example))])));
                              ("name", JString function_name)])] |}).
Proof.
  intros instructions before example after function_name template Hreturned.
  rewrite (make_prompt_template_returned_examples _ _ _ _ Hreturned).
  rewrite map_app, concat_app, map_cons, concat_cons.
  unfold example_components at 2.
  rewrite <- (length_map BaseMessage (messages example)).
  apply lookup_past_prefix.
Qed.

Lemma function_call_message_payload_witness :
  ∃ template,
    _make_prompt_template (Some "Be brief.")
                          (Some ([greeting_example] ++ unsorted_example :: [sorted_example]))
                          "f"
    = Returned template
    ∧ prompt_messages template !! 3%nat
      = Some (BaseMessage
                {| type := ai;
                   content := "";
                   additional_kwargs :=
                     [("function_call",
                       JObject [("arguments",
                                 JString (dumps false
                                            (JObject [("data", JArray (output unsorted_example))])));
                                ("name", JString "f")])] |}).
Proof.
  eexists. split; [vm_compute; reflexivity|].
  apply (function_call_message_payload (Some "Be brief.") [greeting_example]
           unsorted_example [sorted_example] "f").
  vm_compute. reflexivity.
Defined.

(** C5 as the specification states it fails: an instructions string that
    is provided but empty leaves the system message without the blank
    line, since [if instructions:] treats the empty string like [None]. *)
Lemma empty_instructions_system_message :
  ∃ template,
    _make_prompt_template (Some "") None "f" = Returned template
    ∧ head (prompt_messages template)
      ≠ Some (RoleTemplate "system" (prefix +:+ newline +:+ newline +:+ "")).
Proof. eexists. split; [vm_compute; reflexivity|]. vm_compute. discriminate. Qed.

(** C5, amended. For every non-empty instructions string for which the
    template is built, as it is for every string without a brace
    character, the system message is the preamble, one blank line, then
    the instructions; when the instructions are absent or the empty
    string the template is built and its system message is the preamble
    alone. *)
Theorem system_message_instructions :
  ∀ (examples : option (list QueryAnalysisExample)) (function_name : string),
    (∀ (instructions : string) (template : ChatPromptTemplate),
       instructions ≠ "" →
       _make_prompt_template (Some instructions) examples function_name = Returned template →
       head (prompt_messages template)
       = Some (RoleTemplate "system" (prefix +:+ newline +:+ newline +:+ instructions)))
    ∧ (∀ instructions : string,
         brace_free instructions = true →
         ∃ template,
           _make_prompt_template (Some instructions) examples function_name
           = Returned template)
    ∧ (∃ template,
         _make_prompt_template None examples function_name = Returned template
         ∧ head (prompt_messages template) = Some (RoleTemplate "system" prefix))
    ∧ (∃ template,
         _make_prompt_template (Some "") examples function_name = Returned template
         ∧ head (prompt_messages template) = Some (RoleTemplate "system" prefix)).
Proof.
  intros examples function_name. split_and!.
  - intros instructions template Hne Hreturned.
    rewrite (make_prompt_template_returned _ _ _ _ Hreturned).
    destruct instructions as [|c rest]; [done|reflexivity].
  - intros instructions Hfree. by apply make_prompt_template_returns.
  - destruct (make_prompt_template_returns None examples function_name eq_refl)
      as [template Hreturned].
    exists template. split; [done|].
    by rewrite (make_prompt_template_returned _ _ _ _ Hreturned).
  - destruct (make_prompt_template_returns (Some "") examples function_name eq_refl)
      as [template Hreturned].
    exists template. split; [done|].
    by rewrite (make_prompt_template_returned _ _ _ _ Hreturned).
Qed.

Lemma system_message_instructions_witness :
  ∃ template,
    _make_prompt_template (Some "Be brief.") (Some [greeting_example]) "f" = Returned template
    ∧ head (prompt_messages template)
      = Some (RoleTemplate "system" (prefix +:+ newline +:+ newline +:+ "Be brief.")).
Proof.
  destruct (system_message_instructions (Some [greeting_example]) "f")
    as (Hsystem & Hreturns & _).
  destruct (Hreturns "Be brief." eq_refl) as [template Hreturned].
  exists template. split; [exact Hreturned|].
  apply Hsystem; [discriminate|exact Hreturned].
Defined.

(** C6. With no instructions and no examples the template is built and
    its sequence is the bare preamble as system message followed only by
    the placeholder for the live input. *)
Theorem make_prompt_template_bare :
  ∀ function_name : string,
    _make_prompt_template None None function_name
    = Returned
        {| prompt_messages := [RoleTemplate "system" prefix; MessagesPlaceholder "input"] |}.
Proof. intros function_name. vm_compute. reflexivity. Qed.

(** C10 as the specification states it fails: with instructions that
    hold an unbalanced brace neither an empty example list nor absent
    examples give a sequence, [from_messages] raises for both. *)
Lemma unbalanced_brace_no_examples :
  _make_prompt_template (Some "100% {") (Some []) "f"
  = Raised (OtherError "ValueError" "Single '{' encountered in format string")
  ∧ _make_prompt_template (Some "100% {") None "f"
    = Raised (OtherError "ValueError" "Single '{' encountered in format string").
Proof. split; vm_compute; reflexivity. Qed.

(** C10, amended. An empty list of examples gives the same outcome as
    absent examples; whenever the template is built, as it is for all
    instructions without a brace character, its sequence is the system
    message followed by the placeholder. *)
Theorem make_prompt_template_no_examples :
  ∀ (instructions : option string) (function_name : string),
    _make_prompt_template instructions (Some []) function_name
    = _make_prompt_template instructions None function_name
    ∧ (∀ template,
         _make_prompt_template instructions (Some []) function_name = Returned template →
         prompt_messages template
         = [system_message instructions; MessagesPlaceholder "input"])
    ∧ (no_brace instructions = true →
       ∃ template,
         _make_prompt_template instructions (Some []) function_name = Returned template).
Proof.
  intros instructions function_name. split_and!.
  - reflexivity.
  - intros template Hreturned.
    by rewrite (make_prompt_template_returned _ _ _ _ Hreturned).
  - apply make_prompt_template_returns.
Qed.

Lemma make_prompt_template_no_examples_witness :
  ∃ template,
    _make_prompt_template (Some "Be brief.") (Some []) "f" = Returned template
    ∧ prompt_messages template
      = [RoleTemplate "system" (prefix +:+ newline +:+ newline +:+ "Be brief.");
         MessagesPlaceholder "input"].
Proof.
  destruct (make_prompt_template_no_examples (Some "Be brief.") "f")
    as (_ & Hsequence & Hreturns).
  destruct (Hreturns eq_refl) as [template Hreturned].
  exists template. split; [exact Hreturned|].
  exact (Hsequence template Hreturned).
Defined.

(** ** The endpoints *)

Section Endpoints.
Variable check_schema : json → option exception.
Variable convert_json_schema_to_openai_schema : json → outcome Server.OpenAIFunction.
Variable fn_runnable_invoke :
  list Server.OpenAIFunction → ChatPromptTemplate → string → outcome json.
Variable structured_output_ainvoke :
  Server.OpenAIFunction → ChatPromptTemplate → list AnyMessage
  → outcome QueryAnalysisResponse.

Abbreviation validate_or_422 := (Server.validate_or_422 check_schema).
Abbreviation extract :=
  (Server.extract check_schema convert_json_schema_to_openai_schema fn_runnable_invoke).
Abbreviation query_analyzer :=
  (Server.query_analyzer check_schema convert_json_schema_to_openai_schema
                         structured_output_ainvoke).

Abbreviation invalid_schema_422 message :=
  (HTTPException 422 ("Invalid schema: " +:+ message)).

(** The two fixed texts of [/extract_from_text] parse. *)
Lemma from_messages_extract :
  from_messages Server.extract_messages = Returned Server.extract_prompt.
Proof. vm_compute. reflexivity. Qed.

Lemma validate_or_422_log schema log :
  ∃ result, validate_or_422 schema log = (log ++ [Server.CheckSchema schema], result).
Proof.
  unfold Server.validate_or_422, Server.do_check_schema, try_except, perform.
  destruct (check_schema schema) as [[message|message| |]|]; eauto.
Qed.

Lemma validate_or_422_rejects schema message log :
  check_schema schema = Some (ValidationError message) →
  validate_or_422 schema log
  = (log ++ [Server.CheckSchema schema], Raised (invalid_schema_422 message)).
Proof.
  intros Hcheck.
  unfold Server.validate_or_422, Server.do_check_schema, try_except, perform.
  by rewrite Hcheck.
Qed.

Lemma validate_or_422_accepts schema log :
  check_schema schema = None →
  validate_or_422 schema log = (log ++ [Server.CheckSchema schema], Returned tt).
Proof.
  intros Hcheck.
  unfold Server.validate_or_422, Server.do_check_schema, try_except, perform.
  by rewrite Hcheck.
Qed.

(** An exception of any other class leaves the handler as it is. *)
Lemma validate_or_422_propagates schema e log :
  check_schema schema = Some e →
  (∀ message, e ≠ ValidationError message) →
  validate_or_422 schema log = (log ++ [Server.CheckSchema schema], Raised e).
Proof.
  intros Hcheck Hclass.
  unfold Server.validate_or_422, Server.do_check_schema, try_except, perform.
  rewrite Hcheck. destruct e as [message|message| |]; [by destruct (Hclass message)|done..].
Qed.

(** In particular the [except] clause does not match a [SchemaError]. *)
Lemma validate_or_422_schema_error schema message log :
  check_schema schema = Some (SchemaError message) →
  validate_or_422 schema log
  = (log ++ [Server.CheckSchema schema], Raised (SchemaError message)).
Proof.
  intros Hcheck. by apply validate_or_422_propagates.
Qed.

(** When the validator raises, each handler ends after that one call:
    with the 422 error for a [ValidationError], with the validator's
    own exception for any other class. *)
Lemma extract_stops extract_request e log :
  check_schema (Server.schema extract_request) = Some e →
  extract extract_request log
  = (log ++ [Server.CheckSchema (Server.schema extract_request)],
     Raised match e with
            | ValidationError message => HTTPException 422 ("Invalid schema: " +:+ message)
            | _ => e
            end).
Proof.
  intros Hcheck. unfold Server.extract, mbind, handler_bind, bind.
  destruct e as [message|message|status detail|class message].
  - by rewrite (validate_or_422_rejects _ _ _ Hcheck).
  - by rewrite (validate_or_422_propagates _ _ _ Hcheck).
  - by rewrite (validate_or_422_propagates _ _ _ Hcheck).
  - by rewrite (validate_or_422_propagates _ _ _ Hcheck).
Qed.

Lemma query_analyzer_stops request e log :
  check_schema (json_schema request) = Some e →
  query_analyzer request log
  = (log ++ [Server.CheckSchema (json_schema request)],
     Raised match e with
            | ValidationError message => HTTPException 422 ("Invalid schema: " +:+ message)
            | _ => e
            end).
Proof.
  intros Hcheck. unfold Server.query_analyzer, mbind, handler_bind, bind.
  destruct e as [message|message|status detail|class message].
  - by rewrite (validate_or_422_rejects _ _ _ Hcheck).
  - by rewrite (validate_or_422_propagates _ _ _ Hcheck).
  - by rewrite (validate_or_422_propagates _ _ _ Hcheck).
  - by rewrite (validate_or_422_propagates _ _ _ Hcheck).
Qed.

Lemma extract_rejects extract_request message log :
  check_schema (Server.schema extract_request) = Some (ValidationError message) →
  extract extract_request log
  = (log ++ [Server.CheckSchema (Server.schema extract_request)],
     Raised (invalid_schema_422 message)).
Proof. intros Hcheck. by rewrite (extract_stops _ _ _ Hcheck). Qed.

Lemma query_analyzer_rejects request message log :
  check_schema (json_schema request) = Some (ValidationError message) →
  query_analyzer request log
  = (log ++ [Server.CheckSchema (json_schema request)],
     Raised (invalid_schema_422 message)).
Proof. intros Hcheck. by rewrite (query_analyzer_stops _ _ _ Hcheck). Qed.

Lemma extract_accepted extract_request log :
  check_schema (Server.schema extract_request) = None →
  extract extract_request log
  = let schema := Server.schema extract_request in
    let log := log ++ [Server.CheckSchema schema; Server.ConvertSchema schema] in
    match convert_json_schema_to_openai_schema schema with
    | Raised e => (log, Raised e)
    | Returned openai_function =>
        (log ++ [Server.InvokeFnRunnable [openai_function] Server.extract_prompt
                                         (Server.text extract_request)],
         match fn_runnable_invoke [openai_function] Server.extract_prompt
                                  (Server.text extract_request) with
         | Returned extracted_content =>
             Returned {| Server.extracted := extracted_content |}
         | Raised e => Raised e
         end)
    end.
Proof.
  intros Hcheck. unfold Server.extract, mbind, handler_bind, bind.
  rewrite (validate_or_422_accepts _ _ Hcheck), from_messages_extract.
  unfold perform, lift. simpl.
  rewrite <- app_assoc. simpl.
  destruct (convert_json_schema_to_openai_schema _) as [openai_function|e]; [|done].
  by destruct (fn_runnable_invoke _ _ _).
Qed.

Lemma query_analyzer_accepted request log :
  check_schema (json_schema request) = None →
  query_analyzer request log
  = let schema := json_schema request in
    let log := log ++ [Server.CheckSchema schema; Server.ConvertSchema schema] in
    match convert_json_schema_to_openai_schema schema with
    | Raised e => (log, Raised e)
    | Returned openai_function =>
        match _make_prompt_template (instructions request) (examples request)
                                    (Server.name openai_function) with
        | Raised e => (log, Raised e)
        | Returned prompt =>
            (log ++ [Server.InvokeStructuredOutput openai_function prompt
                                                   (request_messages request)],
             structured_output_ainvoke openai_function prompt (request_messages request))
        end
    end.
Proof.
  intros Hcheck. unfold Server.query_analyzer, mbind, handler_bind, bind.
  rewrite (validate_or_422_accepts _ _ Hcheck). unfold perform, lift. simpl.
  rewrite <- app_assoc. simpl.
  destruct (convert_json_schema_to_openai_schema _) as [openai_function|e]; [|done].
  by destruct (_make_prompt_template _ _ _).
Qed.

(** What the handlers do when the validator raises the class that the
    [except] clause names. *)
Lemma invalid_schema_status_422 extract_request request message log :
  check_schema (Server.schema extract_request) = Some (ValidationError message) →
  check_schema (json_schema request) = Some (ValidationError message) →
  (extract extract_request log).2
  = Raised (HTTPException 422 ("Invalid schema: " +:+ message))
  ∧ (query_analyzer request log).2
    = Raised (HTTPException 422 ("Invalid schema: " +:+ message))
  ∧ ∃ rest, "Invalid schema: " +:+ message = "Invalid schema" +:+ rest.
Proof.
  intros Hextract Hquery.
  rewrite (extract_rejects _ _ _ Hextract), (query_analyzer_rejects _ _ _ Hquery).
  split_and!; [done|done|]. by exists (": " +:+ message).
Qed.

(** C3. The validator reports a structurally invalid schema with
    [SchemaError]; the [except] clause of both handlers names
    [ValidationError] only, so the exception leaves both handlers as it
    is and neither answers with the 422 error and its
    ["Invalid schema: ..."] detail. *)
Theorem schema_error_not_422 :
  ∀ (extract_request : Server.ExtractRequest) (request : QueryAnalysisRequest)
    (message : string) (log : list Server.call),
    check_schema (Server.schema extract_request) = Some (SchemaError message) →
    check_schema (json_schema request) = Some (SchemaError message) →
    (extract extract_request log).2 = Raised (SchemaError message)
    ∧ (query_analyzer request log).2 = Raised (SchemaError message)
    ∧ (∀ (status : Z) (detail : string),
         (extract extract_request log).2 ≠ Raised (HTTPException status detail)
         ∧ (query_analyzer request log).2 ≠ Raised (HTTPException status detail)).
Proof.
  intros extract_request request message log Hextract Hquery.
  rewrite (extract_stops _ _ _ Hextract), (query_analyzer_stops _ _ _ Hquery).
  by split_and!.
Qed.

(** C7. [extract] calls the validator before anything else, and when
    the validator raises, whatever the class of its exception, the
    handler ends having made that one call only: the schema is not
    translated, the model is not invoked, and no response is produced.
    The exception is the 422 error only for a [ValidationError]; any
    other, a [SchemaError] included, is raised as it is. *)
Theorem extract_validates_first :
  ∀ (extract_request : Server.ExtractRequest) (log : list Server.call),
    (∃ later,
       (extract extract_request log).1
       = log ++ Server.CheckSchema (Server.schema extract_request) :: later)
    ∧ (∀ message,
         check_schema (Server.schema extract_request) = Some (ValidationError message) →
         extract extract_request log
         = (log ++ [Server.CheckSchema (Server.schema extract_request)],
            Raised (HTTPException 422 ("Invalid schema: " +:+ message))))
    ∧ (∀ e,
         check_schema (Server.schema extract_request) = Some e →
         (∀ message, e ≠ ValidationError message) →
         extract extract_request log
         = (log ++ [Server.CheckSchema (Server.schema extract_request)], Raised e)).
Proof.
  intros extract_request log. split_and!.
  - destruct (check_schema (Server.schema extract_request)) as [e|] eqn:Hcheck.
    + rewrite (extract_stops _ _ _ Hcheck). by exists [].
    + rewrite (extract_accepted _ _ Hcheck). cbv zeta.
      destruct (convert_json_schema_to_openai_schema _) as [openai_function|e];
        simpl; rewrite <- ?app_assoc; simpl; eauto.
  - intros message Hcheck. by apply extract_rejects.
  - intros e Hcheck Hclass. rewrite (extract_stops _ _ _ Hcheck).
    destruct e as [message| | |]; [by destruct (Hclass message)|done..].
Qed.

(** C9. Neither handler passes the model's answer through
    [_deduplicate]: once the schema is accepted and translated and the
    prompt is assembled, [query_analyzer] ends with the outcome of the
    structured-output call itself, and [extract] wraps the answer of
    its runnable unchanged. *)
Theorem handlers_return_model_answer :
  ∀ (extract_request : Server.ExtractRequest) (request : QueryAnalysisRequest)
    (openai_function query_function : Server.OpenAIFunction)
    (prompt : ChatPromptTemplate) (log : list Server.call),
    check_schema (Server.schema extract_request) = None →
    convert_json_schema_to_openai_schema (Server.schema extract_request)
    = Returned openai_function →
    check_schema (json_schema request) = None →
    convert_json_schema_to_openai_schema (json_schema request)
    = Returned query_function →
    _make_prompt_template (instructions request) (examples request)
                          (Server.name query_function)
    = Returned prompt →
    (query_analyzer request log).2
    = structured_output_ainvoke query_function prompt (request_messages request)
    ∧ (extract extract_request log).2
      = match fn_runnable_invoke [openai_function] Server.extract_prompt
                                 (Server.text extract_request) with
        | Returned extracted_content =>
            Returned {| Server.extracted := extracted_content |}
        | Raised e => Raised e
        end.
Proof.
  intros extract_request request openai_function query_function prompt log
         Hcheck Hconvert Hcheck' Hconvert' Hprompt.
  rewrite (query_analyzer_accepted _ _ Hcheck'), (extract_accepted _ _ Hcheck).
  simpl. by rewrite Hconvert, Hconvert', Hprompt.
Qed.
End Endpoints.

Lemma schema_error_not_422_witness :
  (Server.extract schema_error_check_schema toy_convert toy_fn_runnable
                  {| Server.text := "x"; Server.schema := bogus_schema |} []).2
  = Raised (SchemaError "bad type")
  ∧ (Server.query_analyzer schema_error_check_schema toy_convert toy_structured_output
                           {| request_messages := [hello]; json_schema := bogus_schema;
                              instructions := None; examples := None |} []).2
    = Raised (SchemaError "bad type")
  ∧ (∀ (status : Z) (detail : string),
       (Server.extract schema_error_check_schema toy_convert toy_fn_runnable
                       {| Server.text := "x"; Server.schema := bogus_schema |} []).2
       ≠ Raised (HTTPException status detail)
       ∧ (Server.query_analyzer schema_error_check_schema toy_convert toy_structured_output
                                {| request_messages := [hello]; json_schema := bogus_schema;
                                   instructions := None; examples := None |} []).2
         ≠ Raised (HTTPException status detail)).
Proof.
  apply (schema_error_not_422 schema_error_check_schema toy_convert toy_fn_runnable
           toy_structured_output
           {| Server.text := "x"; Server.schema := bogus_schema |}
           {| request_messages := [hello]; json_schema := bogus_schema;
              instructions := None; examples := None |}
           "bad type" []); reflexivity.
Defined.

Lemma extract_validates_first_witness :
  Server.extract schema_error_check_schema toy_convert toy_fn_runnable
                 {| Server.text := "x"; Server.schema := bogus_schema |} []
  = ([Server.CheckSchema bogus_schema], Raised (SchemaError "bad type")).
Proof.
  apply (proj2 (proj2 (extract_validates_first schema_error_check_schema toy_convert
                         toy_fn_runnable
                         {| Server.text := "x"; Server.schema := bogus_schema |} []))
               (SchemaError "bad type")).
  - reflexivity.
  - intros message. discriminate.
Defined.

Lemma handlers_return_model_answer_witness :
  (Server.query_analyzer toy_check_schema toy_convert toy_structured_output
                         {| request_messages := [hello]; json_schema := object_schema;
                            instructions := None; examples := None |} []).2
  = Returned {| data := [obj_a 1; obj_a 1] |}
  ∧ (Server.extract toy_check_schema toy_convert toy_fn_runnable
                    {| Server.text := "x"; Server.schema := object_schema |} []).2
    = Returned {| Server.extracted := JString "x" |}.
Proof.
  apply (handlers_return_model_answer toy_check_schema toy_convert toy_fn_runnable
           toy_structured_output
           {| Server.text := "x"; Server.schema := object_schema |}
           {| request_messages := [hello]; json_schema := object_schema;
              instructions := None; examples := None |}
           {| Server.name := "extractor"; Server.description := "";
              Server.parameters := object_schema |}
           {| Server.name := "extractor"; Server.description := "";
              Server.parameters := object_schema |}
           {| prompt_messages := [RoleTemplate "system" prefix; MessagesPlaceholder "input"] |}
           []); reflexivity.
Defined.

(** The answer of [query_analyzer] keeps a repeated item that
    [_deduplicate] would have dropped. *)
Example query_analyzer_keeps_duplicates :
  (Server.query_analyzer toy_check_schema toy_convert toy_structured_output
                         {| request_messages := [hello]; json_schema := object_schema;
                            instructions := None; examples := None |} []).2
  = Returned {| data := [obj_a 1; obj_a 1] |}
  ∧ _deduplicate [ {| data := [obj_a 1; obj_a 1] |} ] = {| data := [obj_a 1] |}.
Proof. split; vm_compute; reflexivity. Qed.

(** An accepted request runs the validator, the translator and the model,
    in that order. *)
Example extract_accepted_log :
  (Server.extract toy_check_schema toy_convert toy_fn_runnable
                  {| Server.text := "x"; Server.schema := object_schema |} []).1
  = [Server.CheckSchema object_schema;
     Server.ConvertSchema object_schema;
     Server.InvokeFnRunnable
       [{| Server.name := "extractor"; Server.description := "";
           Server.parameters := object_schema |}]
       Server.extract_prompt "x"].
Proof. reflexivity. Qed.

(** Instructions with an unbalanced brace end [query_analyzer] between
    the translator and the model: the model is not called. *)
Example query_analyzer_unbalanced_brace :
  Server.query_analyzer toy_check_schema toy_convert toy_structured_output
                        {| request_messages := [hello]; json_schema := object_schema;
                           instructions := Some "use { here"; examples := None |} []
  = ([Server.CheckSchema object_schema; Server.ConvertSchema object_schema],
     Raised (OtherError "ValueError" "expected '}' before end of string")).
Proof. vm_compute. reflexivity. Qed.

(** ** The schema translator's name *)

Import SchemaTranslator.

Lemma sanitize_all_token_chars title :
  all_token_chars (sanitize title) = true.
Proof.
  induction title as [|c rest IH]; simpl; [done|].
  rewrite IH, andb_true_r.
  destruct (is_token_char c) eqn:Hc; [done|reflexivity].
Qed.

Lemma sanitize_token_fixed title :
  all_token_chars title = true → sanitize title = title.
Proof.
  induction title as [|c rest IH]; simpl; [done|].
  intros [Hc Hrest]%andb_true_iff. by rewrite Hc, IH.
Qed.

(** C8. For every schema [S] the name of [translate S] is a function-name
    token, the same on every call with the same [S]; when [S] declares a
    non-empty title the name is that title sanitized (and the title
    itself when it already is a token), and when [S] declares no title
    the name is the fixed default identifier. *)
Theorem translate_name_token :
  ∀ S : json,
    is_function_name_token (Server.name (translate S)) = true
    ∧ (∀ S', S' = S → Server.name (translate S') = Server.name (translate S))
    ∧ (∀ title, declared_title S = Some title → title ≠ "" →
         Server.name (translate S) = sanitize title
         ∧ (is_function_name_token title = true → Server.name (translate S) = title))
    ∧ (declared_title S = None → Server.name (translate S) = default_name).
Proof.
  intros S. unfold translate. cbn [Server.name]. split_and!.
  - destruct (declared_title S) as [[|c rest]|]; [reflexivity| |reflexivity].
    apply (sanitize_all_token_chars (String c rest)).
  - by intros S' ->.
  - intros title -> Hne. destruct title as [|c rest]; [done|].
    split; [done|]. intros Htoken. by apply sanitize_token_fixed.
  - by intros ->.
Qed.

Lemma translate_name_token_witness :
  Server.name (translate (JObject [("title", JString "Person Record")])) = "Person_Record"
  ∧ Server.name (translate object_schema) = "extractor".
Proof.
  pose proof (translate_name_token (JObject [("title", JString "Person Record")]))
    as (_ & _ & Htitle & _).
  pose proof (translate_name_token object_schema) as (_ & _ & _ & Hdefault).
  split.
  - apply (Htitle "Person Record"); [reflexivity|discriminate].
  - apply Hdefault. reflexivity.
Defined.

(** * Further properties of the aggregator *)

Section Aggregator.

Lemma deduplicate_eq responses :
  _deduplicate responses = {| data := first_occurrences (all_items responses) |}.
Proof.
  rewrite <- deduplicate_first_occurrences. by destruct (_deduplicate responses).
Qed.

Lemma first_occurrences_forms items form :
  form ∈ canonical <$> first_occurrences items ↔ form ∈ canonical <$> items.
Proof.
  split.
  - intros Hin. eapply elem_of_sublist; [exact Hin|].
    apply fmap_sublist, first_occurrences_sublist.
  - intros (item & -> & Hin)%list_elem_of_fmap.
    destruct (first_occurrences_earliest items item Hin)
      as (before & kept & after & _ & <- & _ & Hkept).
    by apply list_elem_of_fmap_2.
Qed.

Lemma filter_all_id {A} (P : A → Prop) `{!∀ x, Decision (P x)} (l : list A) :
  Forall P l → filter P l = l.
Proof.
  induction 1 as [|x l HP _ IH]; [done|].
  by rewrite filter_cons_True, IH.
Qed.

Lemma first_occurrences_NoDup_id items :
  NoDup (canonical <$> items) → first_occurrences items = items.
Proof.
  induction items as [|item later IH]; [done|].
  csimpl. intros [Hfresh Hlater]%NoDup_cons. f_equal.
  rewrite IH by done. apply filter_all_id, Forall_forall.
  intros other Hin Heq. apply Hfresh. rewrite <- Heq. by apply list_elem_of_fmap_2.
Qed.

Lemma first_occurrences_idemp items :
  first_occurrences (first_occurrences items) = first_occurrences items.
Proof. apply first_occurrences_NoDup_id, first_occurrences_NoDup. Qed.

(** The first occurrences of a concatenation: those of the first part,
    then those of the second part whose form the first part lacks. *)
Lemma first_occurrences_app items1 items2 :
  first_occurrences (items1 ++ items2)
  = first_occurrences items1
    ++ filter (fun item => canonical item ∉ canonical <$> items1) (first_occurrences items2).
Proof.
  induction items1 as [|item later IH]; simpl.
  - symmetry. apply filter_everything. intros other. apply not_elem_of_nil.
  - f_equal. rewrite IH, filter_app. f_equal.
    rewrite list_filter_filter. apply list_filter_iff.
    intros other. csimpl. rewrite not_elem_of_cons. tauto.
Qed.

Lemma all_items_app responses1 responses2 :
  all_items (responses1 ++ responses2) = all_items responses1 ++ all_items responses2.
Proof. unfold all_items. by rewrite map_app, concat_app. Qed.

Lemma all_items_pair response1 response2 :
  all_items [response1; response2] = data response1 ++ data response2.
Proof. unfold all_items. simpl. by rewrite app_nil_r. Qed.

Lemma all_items_single response : all_items [response] = data response.
Proof. unfold all_items. simpl. by rewrite app_nil_r. Qed.

End Aggregator.

(** X1. Aggregating an aggregate changes nothing. *)
Theorem deduplicate_idempotent :
  ∀ responses : list QueryAnalysisResponse,
    _deduplicate [_deduplicate responses] = _deduplicate responses.
Proof.
  intros responses. rewrite !deduplicate_eq. f_equal.
  rewrite all_items_single. apply first_occurrences_idemp.
Qed.

(** X2. Batches can be aggregated separately and the aggregates merged:
    the result is that of aggregating all responses at once, and only
    the sequence of items matters, not how it is cut into responses. *)
Theorem deduplicate_merge :
  ∀ responses1 responses2 : list QueryAnalysisResponse,
    _deduplicate (responses1 ++ responses2)
    = _deduplicate [_deduplicate responses1; _deduplicate responses2]
    ∧ _deduplicate (responses1 ++ responses2)
      = _deduplicate [ {| data := concat (map data responses1) ++ concat (map data responses2) |} ]
    ∧ data (_deduplicate (responses1 ++ responses2))
      = data (_deduplicate responses1)
        ++ filter (fun item => dumps true item ∉ dumps true <$> concat (map data responses1))
                  (data (_deduplicate responses2)).
Proof.
  intros responses1 responses2. rewrite !deduplicate_eq.
  rewrite all_items_pair, all_items_single, all_items_app. cbn [data].
  fold (all_items responses1) (all_items responses2).
  split_and!.
  - f_equal. rewrite !first_occurrences_app, !first_occurrences_idemp.
    f_equal. apply list_filter_iff. intros item.
    by rewrite (first_occurrences_forms (all_items responses1)).
  - done.
  - by rewrite first_occurrences_app.
Qed.

(** X3. The aggregate is never longer than the input, and it is the
    input itself exactly when no two items share a canonical form. *)
Theorem deduplicate_unchanged_iff :
  ∀ responses : list QueryAnalysisResponse,
    let items := concat (map data responses) in
    length (data (_deduplicate responses)) ≤ length items
    ∧ (data (_deduplicate responses) = items ↔ NoDup (dumps true <$> items)).
Proof.
  intros responses items. rewrite deduplicate_eq. simpl.
  fold (all_items responses) in items. split.
  - apply sublist_length, first_occurrences_sublist.
  - split.
    + intros Heq. rewrite <- Heq. apply first_occurrences_NoDup.
    + apply first_occurrences_NoDup_id.
Qed.

(** * Further properties of the encoder *)

Import KeyOrder.

(** Induction on a JSON value, with the property available for every
    element of an array and every member of an object. *)
Lemma json_nested_ind (P : json → Prop) :
  P JNull →
  (∀ b, P (JBool b)) →
  (∀ n, P (JInt n)) →
  (∀ s, P (JString s)) →
  (∀ items, Forall P items → P (JArray items)) →
  (∀ members, Forall (fun kv => P (snd kv)) members → P (JObject members)) →
  ∀ obj, P obj.
Proof.
  intros Hnull Hbool Hint Hstring Harray Hobject.
  fix IH 1. intros [|b|n|s|items|members].
  - exact Hnull.
  - apply Hbool.
  - apply Hint.
  - apply Hstring.
  - apply Harray. induction items as [|item items IHitems]; constructor; [apply IH|exact IHitems].
  - apply Hobject.
    induction members as [|[key value] members IHmembers]; constructor;
      [apply IH|exact IHmembers].
Qed.

Section KeyOrderFacts.
Context {V : Type}.

Lemma in_order_sort_items (members : list (string * V)) :
  in_order (map fst members) = true → sort_items members = members.
Proof.
  unfold sort_items.
  induction members as [|kv rest IH]; [done|].
  intros Horder. simpl. rewrite IH.
  - destruct rest as [|kv' rest]; [done|]. simpl in *.
    apply andb_true_iff in Horder as [-> _]. done.
  - destruct rest as [|kv' rest]; [done|]. simpl in Horder.
    by apply andb_true_iff in Horder as [_ ?].
Qed.

Lemma Sorted_in_order (members : list (string * V)) :
  Sorted key_le members → in_order (map fst members) = true.
Proof.
  induction 1 as [|kv rest _ IH Hhd]; [done|].
  destruct rest as [|kv' rest]; [done|]. simpl in *.
  inversion Hhd as [|? ? Hle]; subst. unfold key_le in Hle. by rewrite Hle.
Qed.
End KeyOrderFacts.

Lemma map_fst_on_value {V W} (g : V → W) (members : list (string * V)) :
  map fst (map (fun kv => (fst kv, g (snd kv))) members) = map fst members.
Proof. rewrite map_map. by apply map_ext. Qed.

Lemma dumps_keys_sorted obj :
  keys_sorted obj = true → dumps false obj = dumps true obj.
Proof.
  induction obj as [|b|n|s|items IH|members IH] using json_nested_ind; try done.
  - intros Hsorted. simpl in *. do 3 f_equal.
    apply map_ext_Forall. rewrite forallb_forall in Hsorted.
    rewrite Forall_forall in IH |- *. intros item Hin.
    apply IH; [done|]. apply Hsorted. by apply list_elem_of_In.
  - intros [Horder Hsorted]%andb_true_iff. simpl.
    rewrite in_order_sort_items by by rewrite map_fst_on_value.
    do 4 f_equal. apply map_ext_Forall.
    rewrite forallb_forall in Hsorted. rewrite Forall_forall in IH |- *.
    intros kv Hin. f_equal. apply IH; [done|]. apply Hsorted. by apply list_elem_of_In.
Qed.

Lemma dumps_sort_keys obj :
  dumps true obj = dumps false (sort_keys obj).
Proof.
  induction obj as [|b|n|s|items IH|members IH] using json_nested_ind; try done.
  - simpl. do 3 f_equal. rewrite map_map. apply map_ext_Forall. exact IH.
  - simpl. do 4 f_equal.
    rewrite <- (sort_items_map (dumps false)), map_map. f_equal.
    apply map_ext_Forall. eapply Forall_impl; [exact IH|].
    intros kv Heq. simpl. by rewrite Heq.
Qed.

Lemma keys_sorted_sort_keys obj :
  keys_sorted (sort_keys obj) = true.
Proof.
  induction obj as [|b|n|s|items IH|members IH] using json_nested_ind; try done.
  - simpl. apply forallb_forall. intros item (original & <- & Hin)%in_map_iff.
    rewrite Forall_forall in IH. apply IH. by apply list_elem_of_In.
  - simpl. apply andb_true_iff. split.
    + apply Sorted_in_order, sort_items_sorted.
    + apply forallb_forall. intros kv Hin.
      apply list_elem_of_In in Hin.
      rewrite (proj1 (sort_items_sorted _)) in Hin.
      apply list_elem_of_In, in_map_iff in Hin as (original & <- & Hin).
      rewrite Forall_forall in IH. apply IH. by apply list_elem_of_In.
Qed.

(** X4. The string [_deduplicate] compares is the plain serialization
    of the item with the keys of all its objects put in order; putting
    them in order leaves a value that holds its keys in order and has
    the same canonical form. *)
Theorem canonical_form_sort_keys :
  ∀ item : json,
    dumps true item = dumps false (sort_keys item)
    ∧ keys_sorted (sort_keys item) = true
    ∧ dumps true (sort_keys item) = dumps true item.
Proof.
  intros item. split_and!.
  - apply dumps_sort_keys.
  - apply keys_sorted_sort_keys.
  - rewrite <- dumps_keys_sorted by apply keys_sorted_sort_keys.
    symmetry. apply dumps_sort_keys.
Qed.

(** X5. When every object in an example's output holds its keys in
    order, the [arguments] string of the synthesized function call is
    the canonical form of [{"data": example.output}]. *)
Theorem function_call_arguments_canonical :
  ∀ (example : QueryAnalysisExample) (function_name : string),
    forallb keys_sorted (output example) = true →
    function_call example function_name
    = JObject [("arguments",
                JString (dumps true (JObject [("data", JArray (output example))])));
               ("name", JString function_name)].
Proof.
  intros example function_name Hsorted. unfold function_call.
  rewrite (dumps_keys_sorted (JObject [("data", JArray (output example))])); [done|].
  simpl. by rewrite Hsorted.
Qed.

Lemma function_call_arguments_canonical_witness :
  function_call sorted_example "f"
  = JObject [("arguments",
              JString (dumps true (JObject [("data", JArray (output sorted_example))])));
             ("name", JString "f")].
Proof.
  apply (function_call_arguments_canonical sorted_example "f"). reflexivity.
Defined.

(** The hypothesis is needed: an output with keys out of order fails it,
    and its [arguments] are not the canonical form. *)
Example function_call_arguments_unsorted :
  forallb keys_sorted (output unsorted_example) = false
  ∧ function_call unsorted_example "f"
    ≠ JObject [("arguments",
                JString (dumps true (JObject [("data", JArray (output unsorted_example))])));
               ("name", JString "f")].
Proof. split; [reflexivity|]. vm_compute. discriminate. Qed.

Section SortedUnique.
Context {V : Type}.

Lemma key_le_trans (kv1 kv2 kv3 : string * V) :
  key_le kv1 kv2 → key_le kv2 kv3 → key_le kv1 kv3.
Proof.
  unfold key_le. intros H12%Is_true_true H23%Is_true_true.
  apply Is_true_true. change (String.le (fst kv1) (fst kv3)). by trans (fst kv2).
Qed.

Lemma Sorted_key_le_strong (items : list (string * V)) :
  Sorted key_le items → StronglySorted key_le items.
Proof. apply Sorted_StronglySorted. intros kv1 kv2 kv3. apply key_le_trans. Qed.

Lemma key_le_antisym (kv kv' : string * V) :
  key_le kv kv' → key_le kv' kv → fst kv = fst kv'.
Proof. unfold key_le. apply String.leb_antisym. Qed.

Lemma key_le_refl (kv : string * V) : key_le kv kv.
Proof.
  unfold key_le. apply Is_true_true. change (String.le (fst kv) (fst kv)). reflexivity.
Qed.

(** A list of items with pairwise distinct keys has one arrangement in
    key order. *)
Lemma sorted_items_unique (items1 items2 : list (string * V)) :
  Sorted key_le items1 → Sorted key_le items2 →
  items1 ≡ₚ items2 → NoDup (map fst items2) →
  items1 = items2.
Proof.
  intros Hsorted1%Sorted_key_le_strong Hsorted2%Sorted_key_le_strong.
  revert items2 Hsorted2.
  induction Hsorted1 as [|kv1 rest1 _ IH Hall1]; intros items2 Hsorted2 Hperm Hkeys.
  { by apply Permutation_nil_l in Hperm. }
  destruct Hsorted2 as [|kv2 rest2 Hsorted2 Hall2].
  { by apply Permutation_nil_r in Hperm. }
  assert (kv1 = kv2) as ->.
  { assert (kv1 ∈ kv2 :: rest2) as Hin1 by (rewrite <- Hperm; left).
    assert (kv2 ∈ kv1 :: rest1) as Hin2 by (rewrite Hperm; left).
    apply elem_of_cons in Hin1 as [?|Hin1]; [done|].
    assert (key_le kv2 kv1) as Hle21.
    { rewrite Forall_forall in Hall2. by apply Hall2. }
    assert (key_le kv1 kv2) as Hle12.
    { apply elem_of_cons in Hin2 as [->|Hin2]; [apply key_le_refl|].
      rewrite Forall_forall in Hall1. by apply Hall1. }
    simpl in Hkeys. apply NoDup_cons in Hkeys as [Hfresh _].
    destruct Hfresh. rewrite <- (key_le_antisym _ _ Hle12 Hle21).
    apply list_elem_of_In, in_map, list_elem_of_In, Hin1. }
  f_equal. apply IH; [done|by eapply Permutation_cons_inv|].
  simpl in Hkeys. by apply NoDup_cons in Hkeys as [_ ?].
Qed.

Lemma sort_items_Permutation (items1 items2 : list (string * V)) :
  items1 ≡ₚ items2 → NoDup (map fst items1) → sort_items items1 = sort_items items2.
Proof.
  intros Hperm Hkeys.
  destruct (sort_items_sorted items1) as [Hperm1 Hsorted1].
  destruct (sort_items_sorted items2) as [Hperm2 Hsorted2].
  apply sorted_items_unique; [done|done|by rewrite Hperm1, Hperm2|].
  assert (map fst (sort_items items2) ≡ₚ map fst items1) as ->; [|done].
  apply Permutation_map. by rewrite Hperm2.
Qed.
End SortedUnique.

(** X6. Two objects that hold the same members in a different order,
    the keys being pairwise distinct as in any dict, have the same
    canonical form, and [_deduplicate] keeps only the first of them. *)
Theorem deduplicate_member_order :
  ∀ members members' : list (string * json),
    members ≡ₚ members' →
    NoDup (map fst members) →
    dumps true (JObject members) = dumps true (JObject members')
    ∧ _deduplicate [ {| data := [JObject members; JObject members'] |} ]
      = {| data := [JObject members] |}.
Proof.
  intros members members' Hperm Hkeys.
  assert (dumps true (JObject members) = dumps true (JObject members')) as Hsame.
  { simpl. do 4 f_equal. apply sort_items_Permutation.
    - by apply Permutation_map.
    - by rewrite map_fst_on_value. }
  split; [done|].
  rewrite deduplicate_eq, all_items_single. cbn [data first_occurrences].
  unfold canonical. rewrite filter_cons_False, filter_nil; [done|].
  intros Hne. by apply Hne.
Qed.

Lemma deduplicate_member_order_witness :
  dumps true (JObject [("b", JInt 1); ("a", JInt 2)])
  = dumps true (JObject [("a", JInt 2); ("b", JInt 1)])
  ∧ _deduplicate [ {| data := [JObject [("b", JInt 1); ("a", JInt 2)];
                               JObject [("a", JInt 2); ("b", JInt 1)]] |} ]
    = {| data := [JObject [("b", JInt 1); ("a", JInt 2)]] |}.
Proof.
  apply (deduplicate_member_order [("b", JInt 1); ("a", JInt 2)]
                                  [("a", JInt 2); ("b", JInt 1)]).
  - apply Permutation_swap.
  - apply (bool_decide_unpack _). vm_compute. exact I.
Defined.

(** * Further properties of the prompt assembler *)

Lemma system_message_prefix instructions :
  ∃ rest, system_message instructions = RoleTemplate "system" (prefix +:+ rest).
Proof.
  unfold system_message. destruct (truthy instructions) as [text|]; [by eexists|].
  exists "". reflexivity.
Qed.

(** X7. Whenever the template is built, as it is for all instructions
    without a brace character, its sequence starts with one system
    template that begins with the fixed preamble, ends with the one
    placeholder named [input], and holds only message objects in
    between: no second system template and no second placeholder. *)
Theorem make_prompt_template_shape :
  ∀ (instructions : option string) (examples : option (list QueryAnalysisExample))
    (function_name : string),
    (∀ template,
       _make_prompt_template instructions examples function_name = Returned template →
       ∃ rest middle,
         prompt_messages template
         = RoleTemplate "system" (prefix +:+ rest) :: middle ++ [MessagesPlaceholder "input"]
         ∧ Forall (fun component => ∃ message, component = BaseMessage message) middle)
    ∧ (no_brace instructions = true →
       ∃ template,
         _make_prompt_template instructions examples function_name = Returned template).
Proof.
  intros instructions examples function_name. split.
  - intros template Hreturned.
    destruct (system_message_prefix instructions) as [rest Hsystem].
    exists rest, (concat (map (example_components function_name) (default [] examples))).
    split; [|apply example_components_messages].
    by rewrite (make_prompt_template_returned _ _ _ _ Hreturned), Hsystem.
  - apply make_prompt_template_returns.
Qed.

Lemma make_prompt_template_shape_witness :
  ∃ template,
    _make_prompt_template (Some "Be brief.") (Some [greeting_example]) "f" = Returned template
    ∧ ∃ rest middle,
        prompt_messages template
        = RoleTemplate "system" (prefix +:+ rest) :: middle ++ [MessagesPlaceholder "input"]
        ∧ Forall (fun component => ∃ message, component = BaseMessage message) middle.
Proof.
  destruct (make_prompt_template_shape (Some "Be brief.") (Some [greeting_example]) "f")
    as [Hshape Hreturns].
  destruct (Hreturns eq_refl) as [template Hreturned].
  exists template. split; [exact Hreturned|]. exact (Hshape template Hreturned).
Defined.

Lemma length_example_components function_name examples :
  length (concat (map (example_components function_name) examples))
  = length examples + sum_list (map (fun example => length (messages example)) examples).
Proof.
  induction examples as [|example rest IH]; simpl; [done|].
  rewrite length_app, IH. unfold example_components.
  rewrite length_app, length_map. simpl. lia.
Qed.

(** X8. The assembled sequence has two entries for the system message
    and the placeholder, and for every example one entry per message of
    the example and one for its synthesized function call. *)
Theorem make_prompt_template_length :
  ∀ (instructions : option string) (examples : list QueryAnalysisExample)
    (function_name : string) (template : ChatPromptTemplate),
    _make_prompt_template instructions (Some examples) function_name = Returned template →
    length (prompt_messages template)
    = 2 + length examples
      + sum_list (map (fun example => length (messages example)) examples).
Proof.
  intros instructions examples function_name template Hreturned.
  rewrite (make_prompt_template_returned_examples _ _ _ _ Hreturned). simpl.
  rewrite length_app, length_example_components. simpl. lia.
Qed.

Lemma make_prompt_template_length_witness :
  ∃ template,
    _make_prompt_template (Some "Be brief.") (Some [greeting_example; unsorted_example]) "f"
    = Returned template
    ∧ length (prompt_messages template) = 5.
Proof.
  eexists. split; [vm_compute; reflexivity|].
  apply (make_prompt_template_length (Some "Be brief.") [greeting_example; unsorted_example] "f").
  vm_compute. reflexivity.
Defined.

(** X9. Assembling with the examples [examples1 ++ examples2] splices
    the two sequences assembled separately: the first without its
    placeholder, then the second without its system message. *)
Theorem make_prompt_template_app :
  ∀ (instructions : option string) (examples1 examples2 : list QueryAnalysisExample)
    (function_name : string) (template template1 template2 : ChatPromptTemplate),
    _make_prompt_template instructions (Some (examples1 ++ examples2)) function_name
    = Returned template →
    _make_prompt_template instructions (Some examples1) function_name = Returned template1 →
    _make_prompt_template instructions (Some examples2) function_name = Returned template2 →
    prompt_messages template
    = take (length (prompt_messages template1) - 1) (prompt_messages template1)
      ++ drop 1 (prompt_messages template2).
Proof.
  intros instructions examples1 examples2 function_name template template1 template2
         Hreturned Hreturned1 Hreturned2.
  rewrite (make_prompt_template_returned_examples _ _ _ _ Hreturned),
    (make_prompt_template_returned_examples _ _ _ _ Hreturned1),
    (make_prompt_template_returned_examples _ _ _ _ Hreturned2).
  rewrite map_app, concat_app.
  set (block1 := concat (map _ examples1)). set (block2 := concat (map _ examples2)).
  simpl. rewrite Nat.sub_0_r, length_app. simpl.
  replace (length block1 + 1) with (S (length block1)) by lia. simpl.
  rewrite take_app_length. by rewrite <- app_assoc.
Qed.

Lemma make_prompt_template_app_witness :
  ∃ template template1 template2,
    _make_prompt_template (Some "Be brief.") (Some ([greeting_example] ++ [unsorted_example])) "f"
    = Returned template
    ∧ _make_prompt_template (Some "Be brief.") (Some [greeting_example]) "f"
      = Returned template1
    ∧ _make_prompt_template (Some "Be brief.") (Some [unsorted_example]) "f"
      = Returned template2
    ∧ prompt_messages template
      = take (length (prompt_messages template1) - 1) (prompt_messages template1)
        ++ drop 1 (prompt_messages template2).
Proof.
  eexists _, _, _. split_and!; [vm_compute; reflexivity..|].
  apply (make_prompt_template_app (Some "Be brief.") [greeting_example] [unsorted_example] "f");
    vm_compute; reflexivity.
Defined.

(** X10. The instructions reach the first entry only: of two templates
    built with different instructions every later entry is the same. *)
Theorem make_prompt_template_instructions_local :
  ∀ (instructions instructions' : option string)
    (examples : option (list QueryAnalysisExample)) (function_name : string)
    (template template' : ChatPromptTemplate),
    _make_prompt_template instructions examples function_name = Returned template →
    _make_prompt_template instructions' examples function_name = Returned template' →
    tail (prompt_messages template) = tail (prompt_messages template').
Proof.
  intros instructions instructions' examples function_name template template'
         Hreturned Hreturned'.
  by rewrite (make_prompt_template_returned _ _ _ _ Hreturned),
    (make_prompt_template_returned _ _ _ _ Hreturned').
Qed.

Lemma make_prompt_template_instructions_local_witness :
  ∃ template template',
    _make_prompt_template (Some "Be brief.") (Some [greeting_example]) "f" = Returned template
    ∧ _make_prompt_template None (Some [greeting_example]) "f" = Returned template'
    ∧ tail (prompt_messages template) = tail (prompt_messages template').
Proof.
  eexists _, _. split_and!; [vm_compute; reflexivity..|].
  apply (make_prompt_template_instructions_local (Some "Be brief.") None
           (Some [greeting_example]) "f"); vm_compute; reflexivity.
Defined.

(** * Further properties of the endpoints *)

Section EndpointOutcomes.
Variable check_schema : json → option exception.
Variable convert_json_schema_to_openai_schema : json → outcome Server.OpenAIFunction.
Variable fn_runnable_invoke :
  list Server.OpenAIFunction → ChatPromptTemplate → string → outcome json.
Variable structured_output_ainvoke :
  Server.OpenAIFunction → ChatPromptTemplate → list AnyMessage
  → outcome QueryAnalysisResponse.

Abbreviation extract :=
  (Server.extract check_schema convert_json_schema_to_openai_schema fn_runnable_invoke).
Abbreviation query_analyzer :=
  (Server.query_analyzer check_schema convert_json_schema_to_openai_schema
                         structured_output_ainvoke).

(** X11. [extract] calls its collaborators in the order validator,
    translator, model and each at most once; the model is reached only
    after the validator accepted the schema and the translator returned
    a function, and it is given that one function, the fixed prompt and
    the text of the request. *)
Theorem extract_calls :
  ∀ (extract_request : Server.ExtractRequest) (log : list Server.call),
    let schema := Server.schema extract_request in
    ∃ added,
      (extract extract_request log).1 = log ++ added
      ∧ (added = [Server.CheckSchema schema]
         ∨ added = [Server.CheckSchema schema; Server.ConvertSchema schema]
           ∧ check_schema schema = None
         ∨ ∃ openai_function,
             check_schema schema = None
             ∧ convert_json_schema_to_openai_schema schema = Returned openai_function
             ∧ added = [Server.CheckSchema schema; Server.ConvertSchema schema;
                        Server.InvokeFnRunnable [openai_function] Server.extract_prompt
                                                (Server.text extract_request)]).
Proof.
  intros extract_request log schema. subst schema.
  destruct (check_schema (Server.schema extract_request)) as [e|] eqn:Hcheck.
  - rewrite (extract_stops _ _ _ _ _ _ Hcheck). eexists. split; [done|]. by left.
  - rewrite (extract_accepted _ _ _ _ _ Hcheck). cbv zeta.
    destruct (convert_json_schema_to_openai_schema _) as [openai_function|e] eqn:Hconvert.
    + eexists. split; [by rewrite <- app_assoc|]. right. right. by exists openai_function.
    + eexists. split; [done|]. right. by left.
Qed.


(** X13. [extract] returns a response exactly when the validator
    accepts the schema, the translator returns a function and the model
    returns a value; that value is the [extracted] field. *)
Theorem extract_returns_iff :
  ∀ (extract_request : Server.ExtractRequest) (log : list Server.call)
    (response : Server.ExtractResponse),
    (extract extract_request log).2 = Returned response
    ↔ check_schema (Server.schema extract_request) = None
      ∧ ∃ openai_function,
          convert_json_schema_to_openai_schema (Server.schema extract_request)
          = Returned openai_function
          ∧ fn_runnable_invoke [openai_function] Server.extract_prompt
                               (Server.text extract_request)
            = Returned (Server.extracted response).
Proof.
  intros extract_request log [extracted].
  destruct (check_schema (Server.schema extract_request)) as [e|] eqn:Hcheck.
  { rewrite (extract_stops _ _ _ _ _ _ Hcheck). simpl. split; [done|by intros [? _]]. }
  rewrite (extract_accepted _ _ _ _ _ Hcheck). cbv zeta.
  destruct (convert_json_schema_to_openai_schema _) as [openai_function|e]; simpl.
  - destruct (fn_runnable_invoke _ _ _) as [value|e] eqn:Hinvoke; simpl.
    + split.
      * intros [= ->]. split; [done|]. by exists openai_function.
      * intros [_ (f & [= <-] & Hvalue)]. rewrite Hinvoke in Hvalue. by simplify_eq.
    + split; [done|]. intros [_ (f & [= <-] & Hvalue)]. by rewrite Hinvoke in Hvalue.
  - split; [done|]. by intros [_ (f & ? & _)].
Qed.

(** X14. [query_analyzer] returns a response exactly when the validator
    accepts the schema, the translator returns a function, the prompt is
    assembled for that function's name, and the structured-output call
    on that prompt returns that response. *)
Theorem query_analyzer_returns_iff :
  ∀ (request : QueryAnalysisRequest) (log : list Server.call)
    (response : QueryAnalysisResponse),
    (query_analyzer request log).2 = Returned response
    ↔ check_schema (json_schema request) = None
      ∧ ∃ openai_function prompt,
          convert_json_schema_to_openai_schema (json_schema request)
          = Returned openai_function
          ∧ _make_prompt_template (instructions request) (examples request)
                                  (Server.name openai_function)
            = Returned prompt
          ∧ structured_output_ainvoke openai_function prompt (request_messages request)
            = Returned response.
Proof.
  intros request log response.
  destruct (check_schema (json_schema request)) as [e|] eqn:Hcheck.
  { rewrite (query_analyzer_stops _ _ _ _ _ _ Hcheck). simpl.
    split; [done|by intros [? _]]. }
  rewrite (query_analyzer_accepted _ _ _ _ _ Hcheck). cbv zeta.
  destruct (convert_json_schema_to_openai_schema _) as [openai_function|e]; simpl.
  - destruct (_make_prompt_template _ _ _) as [prompt|e] eqn:Hprompt; simpl.
    + split.
      * intros Hinvoke. split; [done|]. by exists openai_function, prompt.
      * intros [_ (f & p & [= <-] & Hp & Hinvoke)].
        rewrite Hprompt in Hp. by simplify_eq.
    + split; [done|]. intros [_ (f & p & [= <-] & Hp & _)]. by rewrite Hprompt in Hp.
  - split; [done|]. by intros [_ (f & p & ? & _)].
Qed.

(** X15. Every exception that leaves [extract] is either the 422 error
    made from the validator's [ValidationError], or an exception that a
    collaborator raised, passed on unchanged: from the validator (any
    other class), from the translator, or from the model. *)
Theorem extract_raises_only :
  ∀ (extract_request : Server.ExtractRequest) (log : list Server.call) (e : exception),
    (extract extract_request log).2 = Raised e →
    let schema := Server.schema extract_request in
    (∃ message, check_schema schema = Some (ValidationError message)
                ∧ e = HTTPException 422 ("Invalid schema: " +:+ message))
    ∨ (check_schema schema = Some e ∧ ∀ message, e ≠ ValidationError message)
    ∨ (check_schema schema = None
       ∧ convert_json_schema_to_openai_schema schema = Raised e)
    ∨ (check_schema schema = None
       ∧ ∃ openai_function,
           convert_json_schema_to_openai_schema schema = Returned openai_function
           ∧ fn_runnable_invoke [openai_function] Server.extract_prompt
                                (Server.text extract_request) = Raised e).
Proof.
  intros extract_request log e Hraised schema. subst schema. revert Hraised.
  destruct (check_schema (Server.schema extract_request)) as [e'|] eqn:Hcheck.
  { rewrite (extract_stops _ _ _ _ _ _ Hcheck). simpl. intros [= <-].
    destruct e' as [message|message|status detail|class message];
      [left; by exists message|right; left; by split..]. }
  rewrite (extract_accepted _ _ _ _ _ Hcheck). cbv zeta.
  destruct (convert_json_schema_to_openai_schema _) as [openai_function|e']; simpl.
  - destruct (fn_runnable_invoke _ _ _) as [value|e'] eqn:Hinvoke; simpl; [done|].
    intros [= <-]. do 3 right. split; [done|]. by exists openai_function.
  - intros [= <-]. right. right. left. by split.
Qed.

(** X16. Every exception that leaves [query_analyzer] is either the 422
    error made from the validator's [ValidationError], or an exception
    passed on unchanged: from the validator (any other class), from the
    translator, from the assembly of the prompt (the [ValueError] of
    [from_messages]), or from the model. *)
Theorem query_analyzer_raises_only :
  ∀ (request : QueryAnalysisRequest) (log : list Server.call) (e : exception),
    (query_analyzer request log).2 = Raised e →
    let schema := json_schema request in
    (∃ message, check_schema schema = Some (ValidationError message)
                ∧ e = HTTPException 422 ("Invalid schema: " +:+ message))
    ∨ (check_schema schema = Some e ∧ ∀ message, e ≠ ValidationError message)
    ∨ (check_schema schema = None
       ∧ convert_json_schema_to_openai_schema schema = Raised e)
    ∨ (check_schema schema = None
       ∧ ∃ openai_function,
           convert_json_schema_to_openai_schema schema = Returned openai_function
           ∧ _make_prompt_template (instructions request) (examples request)
                                   (Server.name openai_function)
             = Raised e)
    ∨ (check_schema schema = None
       ∧ ∃ openai_function prompt,
           convert_json_schema_to_openai_schema schema = Returned openai_function
           ∧ _make_prompt_template (instructions request) (examples request)
                                   (Server.name openai_function)
             = Returned prompt
           ∧ structured_output_ainvoke openai_function prompt (request_messages request)
             = Raised e).
Proof.
  intros request log e Hraised schema. subst schema. revert Hraised.
  destruct (check_schema (json_schema request)) as [e'|] eqn:Hcheck.
  { rewrite (query_analyzer_stops _ _ _ _ _ _ Hcheck). simpl. intros [= <-].
    destruct e' as [message|message|status detail|class message];
      [left; by exists message|right; left; by split..]. }
  rewrite (query_analyzer_accepted _ _ _ _ _ Hcheck). cbv zeta.
  destruct (convert_json_schema_to_openai_schema _) as [openai_function|e']; simpl.
  - destruct (_make_prompt_template _ _ _) as [prompt|e'] eqn:Hprompt; simpl.
    + intros Hinvoke. do 4 right. split; [done|]. by exists openai_function, prompt.
    + intros [= <-]. do 3 right. left. split; [done|]. by exists openai_function.
  - intros [= <-]. right. right. left. by split.
Qed.

(** X17. An exception of any class other than [ValidationError] raised
    by the validator, a [SchemaError] for one, is not turned into a 422
    error: both handlers raise it as it is, after that one call. *)
Theorem validator_error_not_caught :
  ∀ (extract_request : Server.ExtractRequest) (request : QueryAnalysisRequest)
    (e : exception) (log : list Server.call),
    (∀ message, e ≠ ValidationError message) →
    check_schema (Server.schema extract_request) = Some e →
    check_schema (json_schema request) = Some e →
    extract extract_request log
    = (log ++ [Server.CheckSchema (Server.schema extract_request)], Raised e)
    ∧ query_analyzer request log
      = (log ++ [Server.CheckSchema (json_schema request)], Raised e).
Proof.
  intros extract_request request e log Hclass Hextract Hquery.
  rewrite (extract_stops _ _ _ _ _ _ Hextract), (query_analyzer_stops _ _ _ _ _ _ Hquery).
  destruct e as [message| | |]; [by destruct (Hclass message)|done..].
Qed.

(** X18. When the translator raises, both handlers pass its exception
    on and the model is not called. *)
Theorem translator_error_propagates :
  ∀ (extract_request : Server.ExtractRequest) (request : QueryAnalysisRequest)
    (e : exception) (log : list Server.call),
    check_schema (Server.schema extract_request) = None →
    convert_json_schema_to_openai_schema (Server.schema extract_request) = Raised e →
    check_schema (json_schema request) = None →
    convert_json_schema_to_openai_schema (json_schema request) = Raised e →
    extract extract_request log
    = (log ++ [Server.CheckSchema (Server.schema extract_request);
               Server.ConvertSchema (Server.schema extract_request)], Raised e)
    ∧ query_analyzer request log
      = (log ++ [Server.CheckSchema (json_schema request);
                 Server.ConvertSchema (json_schema request)], Raised e).
Proof.
  intros extract_request request e log Hcheck Hconvert Hcheck' Hconvert'.
  rewrite (extract_accepted _ _ _ _ _ Hcheck), (query_analyzer_accepted _ _ _ _ _ Hcheck').
  cbv zeta. by rewrite Hconvert, Hconvert'.
Qed.

End EndpointOutcomes.

Lemma extract_raises_only_witness :
  (∃ message, toy_check_schema bogus_schema = Some (ValidationError message)
              ∧ HTTPException 422 "Invalid schema: bad type"
                = HTTPException 422 ("Invalid schema: " +:+ message))
  ∨ (toy_check_schema bogus_schema = Some (HTTPException 422 "Invalid schema: bad type")
     ∧ ∀ message, HTTPException 422 "Invalid schema: bad type" ≠ ValidationError message)
  ∨ (toy_check_schema bogus_schema = None
     ∧ toy_convert bogus_schema = Raised (HTTPException 422 "Invalid schema: bad type"))
  ∨ (toy_check_schema bogus_schema = None
     ∧ ∃ openai_function,
         toy_convert bogus_schema = Returned openai_function
         ∧ toy_fn_runnable [openai_function] Server.extract_prompt "x"
           = Raised (HTTPException 422 "Invalid schema: bad type")).
Proof.
  apply (extract_raises_only toy_check_schema toy_convert toy_fn_runnable
           {| Server.text := "x"; Server.schema := bogus_schema |} []
           (HTTPException 422 "Invalid schema: bad type")).
  reflexivity.
Defined.

Lemma query_analyzer_raises_only_witness :
  let request := {| request_messages := [hello]; json_schema := object_schema;
                    instructions := Some "use { here"; examples := None |} in
  let e := OtherError "ValueError" "expected '}' before end of string" in
  (∃ message, toy_check_schema object_schema = Some (ValidationError message)
              ∧ e = HTTPException 422 ("Invalid schema: " +:+ message))
  ∨ (toy_check_schema object_schema = Some e ∧ ∀ message, e ≠ ValidationError message)
  ∨ (toy_check_schema object_schema = None ∧ toy_convert object_schema = Raised e)
  ∨ (toy_check_schema object_schema = None
     ∧ ∃ openai_function,
         toy_convert object_schema = Returned openai_function
         ∧ _make_prompt_template (Some "use { here") None (Server.name openai_function)
           = Raised e)
  ∨ (toy_check_schema object_schema = None
     ∧ ∃ openai_function prompt,
         toy_convert object_schema = Returned openai_function
         ∧ _make_prompt_template (Some "use { here") None (Server.name openai_function)
           = Returned prompt
         ∧ toy_structured_output openai_function prompt [hello] = Raised e).
Proof.
  apply (query_analyzer_raises_only toy_check_schema toy_convert toy_structured_output
           {| request_messages := [hello]; json_schema := object_schema;
              instructions := Some "use { here"; examples := None |} []
           (OtherError "ValueError" "expected '}' before end of string")).
  reflexivity.
Defined.

Lemma validator_error_not_caught_witness :
  Server.extract schema_error_check_schema toy_convert toy_fn_runnable
                 {| Server.text := "x"; Server.schema := bogus_schema |} []
  = ([Server.CheckSchema bogus_schema], Raised (SchemaError "bad type"))
  ∧ Server.query_analyzer schema_error_check_schema toy_convert toy_structured_output
                          {| request_messages := [hello]; json_schema := bogus_schema;
                             instructions := None; examples := None |} []
    = ([Server.CheckSchema bogus_schema], Raised (SchemaError "bad type")).
Proof.
  apply (validator_error_not_caught schema_error_check_schema toy_convert toy_fn_runnable
           toy_structured_output
           {| Server.text := "x"; Server.schema := bogus_schema |}
           {| request_messages := [hello]; json_schema := bogus_schema;
              instructions := None; examples := None |}
           (SchemaError "bad type") []);
    [intros message; discriminate|reflexivity|reflexivity].
Defined.

Lemma translator_error_propagates_witness :
  Server.extract toy_check_schema failing_convert toy_fn_runnable
                 {| Server.text := "x"; Server.schema := object_schema |} []
  = ([Server.CheckSchema object_schema; Server.ConvertSchema object_schema],
     Raised (OtherError "ValueError" "unsupported schema"))
  ∧ Server.query_analyzer toy_check_schema failing_convert toy_structured_output
                          {| request_messages := [hello]; json_schema := object_schema;
                             instructions := None; examples := None |} []
    = ([Server.CheckSchema object_schema; Server.ConvertSchema object_schema],
       Raised (OtherError "ValueError" "unsupported schema")).
Proof.
  apply (translator_error_propagates toy_check_schema failing_convert toy_fn_runnable
           toy_structured_output
           {| Server.text := "x"; Server.schema := object_schema |}
           {| request_messages := [hello]; json_schema := object_schema;
              instructions := None; examples := None |}
           (OtherError "ValueError" "unsupported schema") []); reflexivity.
Defined.

(** * The encoder loses nothing *)

Import Decoding.

Lemma unescape_head_escape_char c rest :
  unescape_head (escape_char c +:+ rest) = Some (c, rest).
Proof.
  destruct c as [[] [] [] [] [] [] [] []]; reflexivity.
Qed.

Lemma unescape_head_quote rest : unescape_head (String dquote rest) = None.
Proof. reflexivity. Qed.

Lemma escape_body_inj s t rest1 rest2 :
  escape_body s +:+ String dquote rest1 = escape_body t +:+ String dquote rest2 →
  s = t ∧ rest1 = rest2.
Proof.
  revert t. induction s as [|c s IH]; intros [|d t]; simpl;
    rewrite ?append_nil_l, ?append_assoc.
  - by intros [= ->].
  - intros Heq. apply (f_equal unescape_head) in Heq.
    by rewrite unescape_head_escape_char in Heq.
  - intros Heq. apply (f_equal unescape_head) in Heq.
    by rewrite unescape_head_escape_char in Heq.
  - intros Heq. apply (f_equal unescape_head) in Heq.
    rewrite !unescape_head_escape_char in Heq.
    injection Heq as -> Heq. by destruct (IH _ Heq) as [-> ->].
Qed.

Lemma encode_basestring_ascii_inj s t rest1 rest2 :
  encode_basestring_ascii s +:+ rest1 = encode_basestring_ascii t +:+ rest2 →
  s = t ∧ rest1 = rest2.
Proof.
  unfold encode_basestring_ascii. rewrite !append_cons, !append_assoc, !append_cons.
  intros [= Heq]. by apply escape_body_inj.
Qed.

Section Numbers.

Lemma pretty_N_char_digit x : is_digit (pretty_N_char x) = true.
Proof. unfold pretty_N_char. by repeat case_match. Qed.

Lemma all_digits_app d1 d2 :
  all_digits d1 = true → all_digits d2 = true → all_digits (d1 +:+ d2) = true.
Proof.
  induction d1 as [|c d1 IH]; [done|]. rewrite append_cons. simpl.
  intros [-> ?]%andb_true_iff ?. by apply IH.
Qed.

Lemma pretty_N_go_digits x s :
  ∃ digits, pretty_N_go x s = digits +:+ s ∧ all_digits digits = true.
Proof.
  revert s. induction (N.lt_wf_0 x) as [x _ IH]; intros s.
  destruct (decide (x = 0)%N) as [->|Hpos].
  { exists "". by rewrite pretty_N_go_0. }
  rewrite pretty_N_go_step by lia.
  destruct (IH (x `div` 10)%N) with (s := String (pretty_N_char (x `mod` 10)) s)
    as (digits & -> & Hdigits).
  { apply N.div_lt; lia. }
  exists (digits +:+ String (pretty_N_char (x `mod` 10)) "").
  split; [by rewrite append_assoc|].
  apply all_digits_app; [done|]. simpl. by rewrite pretty_N_char_digit.
Qed.

Lemma pretty_N_digits (x : N) :
  all_digits (pretty x) = true ∧ pretty x ≠ "".
Proof.
  unfold pretty, pretty_N. case_decide as Hx; [done|].
  destruct (pretty_N_go_digits x "") as (digits & Heq & Hdigits). split.
  - rewrite Heq. by apply all_digits_app.
  - destruct (decide (0 < x)%N) as [Hpos|]; [|lia].
    rewrite pretty_N_go_step by done.
    destruct (pretty_N_go_digits (x `div` 10) (String (pretty_N_char (x `mod` 10)) ""))
      as (digits' & -> & _).
    by destruct digits'.
Qed.

(** A serialized integer: an optional minus sign, then digits. *)
Lemma pretty_Z_digits (n : Z) :
  ∃ digits, all_digits digits = true ∧ digits ≠ ""
            ∧ (pretty n = digits ∨ pretty n = String "-" digits).
Proof.
  destruct n as [|p|p].
  - exists "0". by split_and!; [..|left].
  - destruct (pretty_N_digits (N.pos p)) as [? ?]. exists (pretty (N.pos p)).
    by split_and!; [..|left].
  - destruct (pretty_N_digits (N.pos p)) as [? ?]. exists (pretty (N.pos p)).
    by split_and!; [..|right].
Qed.

Lemma closes_not_digit c rest : closes (String c rest) = true → is_digit c = false.
Proof.
  unfold closes, is_digit. intros Hc.
  destruct (N_of_ascii c =? 44)%N eqn:H1; [apply N.eqb_eq in H1 as ->; done|].
  destruct (N_of_ascii c =? 93)%N eqn:H2; [apply N.eqb_eq in H2 as ->; done|].
  destruct (N_of_ascii c =? 125)%N eqn:H3; [apply N.eqb_eq in H3 as ->; done|].
  done.
Qed.

Lemma digits_split d1 d2 rest1 rest2 :
  all_digits d1 = true → all_digits d2 = true →
  closes rest1 = true → closes rest2 = true →
  d1 +:+ rest1 = d2 +:+ rest2 → d1 = d2 ∧ rest1 = rest2.
Proof.
  revert d2. induction d1 as [|c d1 IH]; intros [|c' d2];
    rewrite ?append_cons, ?append_nil_l; simpl.
  - done.
  - intros _ [Hc _]%andb_true_iff Hrest _ ->.
    apply closes_not_digit in Hrest. congruence.
  - intros [Hc _]%andb_true_iff _ _ Hrest <-.
    apply closes_not_digit in Hrest. congruence.
  - intros [_ H1]%andb_true_iff [_ H2]%andb_true_iff Hrest1 Hrest2 [= -> Heq].
    by destruct (IH _ H1 H2 Hrest1 Hrest2 Heq) as [-> ->].
Qed.

Lemma pretty_Z_split (n m : Z) rest1 rest2 :
  closes rest1 = true → closes rest2 = true →
  pretty n +:+ rest1 = pretty m +:+ rest2 → n = m ∧ rest1 = rest2.
Proof.
  intros Hrest1 Hrest2 Heq.
  destruct (pretty_Z_digits n) as (d1 & Hd1 & Hne1 & Hn).
  destruct (pretty_Z_digits m) as (d2 & Hd2 & Hne2 & Hm).
  assert (pretty n = pretty m ∧ rest1 = rest2) as [Hpretty ->].
  { destruct Hn as [Hn|Hn], Hm as [Hm|Hm]; rewrite Hn, Hm in Heq |- *.
    - by destruct (digits_split _ _ _ _ Hd1 Hd2 Hrest1 Hrest2 Heq) as [-> ->].
    - destruct d1 as [|c d1]; [done|]. rewrite !append_cons in Heq.
      injection Heq as -> _. simpl in Hd1. done.
    - destruct d2 as [|c d2]; [done|]. rewrite !append_cons in Heq.
      injection Heq as <- _. simpl in Hd2. done.
    - rewrite !append_cons in Heq. injection Heq as Heq.
      by destruct (digits_split _ _ _ _ Hd1 Hd2 Hrest1 Hrest2 Heq) as [-> ->]. }
  split; [|done]. by apply (inj pretty).
Qed.

End Numbers.

Section JoinSplit.
Context {A : Type} (enc : A → string) (close : ascii).
Hypothesis close_closes : ∀ rest, closes (String close rest) = true.
Hypothesis close_not_comma : close ≠ ","%char.
Hypothesis enc_not_close : ∀ item tail rest, enc item +:+ tail ≠ String close rest.

Abbreviation after_first := (after_first enc close).

Lemma join_cons_close item items rest :
  join ", " (map enc (item :: items)) +:+ String close rest
  = enc item +:+ after_first items rest.
Proof.
  destruct items as [|item' items]; [done|].
  change (join ", " (map enc (item :: item' :: items)))
    with (enc item +:+ ", " +:+ join ", " (map enc (item' :: items))).
  by rewrite !append_assoc.
Qed.

Lemma after_first_closes items rest : closes (after_first items rest) = true.
Proof. destruct items; [apply close_closes|done]. Qed.

Lemma join_split items items' rest1 rest2 :
  Forall (fun item => ∀ item' tail1 tail2,
            closes tail1 = true → closes tail2 = true →
            enc item +:+ tail1 = enc item' +:+ tail2 → item = item' ∧ tail1 = tail2)
         items →
  join ", " (map enc items) +:+ String close rest1
  = join ", " (map enc items') +:+ String close rest2 →
  items = items' ∧ rest1 = rest2.
Proof.
  intros Hitems. revert items'.
  induction Hitems as [|item items Hitem _ IH]; intros [|item' items'].
  - by intros [= ->].
  - rewrite join_cons_close. intros Heq. symmetry in Heq. by apply enc_not_close in Heq.
  - rewrite join_cons_close. intros Heq. by apply enc_not_close in Heq.
  - rewrite !join_cons_close. intros Heq.
    apply Hitem in Heq as [<- Htail]; [|apply after_first_closes..].
    destruct items as [|next items], items' as [|next' items'];
      unfold Decoding.after_first in Htail.
    + by injection Htail as ->.
    + injection Htail as Hc _. by destruct close_not_comma.
    + injection Htail as Hc _. by destruct close_not_comma.
    + injection Htail as Htail.
      by destruct (IH (next' :: items') Htail) as [-> ->].
Qed.
End JoinSplit.

Section DumpsInjective.

Lemma is_digit_kind c : is_digit c = true → kind_of_char c = KNumber.
Proof. destruct c as [[] [] [] [] [] [] [] []]; by vm_compute. Qed.

(** The first character of a serialized value tells its kind. *)
Lemma dumps_kind obj rest :
  ∃ c tail, dumps false obj +:+ rest = String c tail ∧ kind_of_char c = kind_of obj.
Proof.
  destruct obj as [|[]|n|s|items|members]; try (by eexists _, _).
  simpl. destruct (pretty_Z_digits n) as (digits & Hdigits & Hne & [-> | ->]).
  - destruct digits as [|c digits]; [done|]. simpl in Hdigits.
    apply andb_true_iff in Hdigits as [Hc _].
    exists c, (digits +:+ rest). split; [done|]. by apply is_digit_kind.
  - by eexists _, _.
Qed.

Lemma dumps_same_kind obj obj' rest rest' :
  dumps false obj +:+ rest = dumps false obj' +:+ rest' → kind_of obj = kind_of obj'.
Proof.
  destruct (dumps_kind obj rest) as (c & tail & -> & <-).
  destruct (dumps_kind obj' rest') as (c' & tail' & -> & <-).
  by intros [= -> _].
Qed.

Lemma dumps_not_close obj tail rest (close : ascii) :
  kind_of_char close = KNone → dumps false obj +:+ tail ≠ String close rest.
Proof.
  intros Hclose. destruct (dumps_kind obj tail) as (c & tail' & -> & Hkind).
  intros [= -> _]. rewrite Hclose in Hkind. by destruct obj.
Qed.

Lemma encode_member_split (key key' : string) (value value' : json) tail1 tail2 :
  encode_member (key, dumps false value) +:+ tail1
  = encode_member (key', dumps false value') +:+ tail2 →
  key = key' ∧ dumps false value +:+ tail1 = dumps false value' +:+ tail2.
Proof.
  unfold encode_member. simpl. rewrite !append_assoc.
  intros [-> Heq]%encode_basestring_ascii_inj. split; [done|].
  rewrite !append_cons, !append_nil_l in Heq. by injection Heq.
Qed.

(** A serialized value can be read back from the front of a text: two
    values whose serializations, each followed by a closing text, agree
    are the same value followed by the same text. *)
Lemma dumps_split obj :
  ∀ obj' rest rest',
    closes rest = true → closes rest' = true →
    dumps false obj +:+ rest = dumps false obj' +:+ rest' →
    obj = obj' ∧ rest = rest'.
Proof.
  induction obj as [|b|n|s|items IH|members IH] using json_nested_ind;
    intros obj' rest rest' Hrest Hrest' Heq;
    pose proof (dumps_same_kind _ _ _ _ Heq) as Hkind;
    destruct obj' as [|b'|n'|s'|items'|members']; try discriminate Hkind; clear Hkind.
  - split; [done|]. by apply (inj (String.append "null")) in Heq.
  - destruct b, b'; simpl in Heq; rewrite !append_cons in Heq; try discriminate Heq.
    + split; [done|]. by simplify_eq.
    + split; [done|]. by simplify_eq.
  - simpl in Heq. by destruct (pretty_Z_split _ _ _ _ Hrest Hrest' Heq) as [-> ->].
  - simpl in Heq. by destruct (encode_basestring_ascii_inj _ _ _ _ Heq) as [-> ->].
  - simpl in Heq. rewrite !append_cons, !append_nil_l, !append_assoc in Heq.
    injection Heq as Heq. rewrite !append_cons, !append_nil_l in Heq.
    destruct (join_split (dumps false) "]") with (5 := Heq) as [-> ->]; try done.
    intros item tail rest0. by apply dumps_not_close.
  - simpl in Heq. rewrite !map_map in Heq.
    rewrite !append_cons, !append_nil_l, !append_assoc in Heq.
    injection Heq as Heq. rewrite !append_cons, !append_nil_l in Heq.
    destruct (join_split (fun kv : string * json =>
                            encode_member (fst kv, dumps false (snd kv))) "}")
      with (5 := Heq) as [-> ->]; try done.
    eapply Forall_impl; [exact IH|]. intros [key value] Hvalue [key' value'] tail1 tail2
      Htail1 Htail2 Hsplit.
    cbn [fst snd] in Hsplit, Hvalue.
    apply encode_member_split in Hsplit as [-> Hsplit].
    by destruct (Hvalue _ _ _ Htail1 Htail2 Hsplit) as [-> ->].
Qed.

Lemma dumps_inj obj obj' : dumps false obj = dumps false obj' → obj = obj'.
Proof.
  intros Heq. apply (dumps_split obj obj' "" ""); [done..|].
  by rewrite Heq.
Qed.

End DumpsInjective.

Lemma canonical_form_kernel item item' :
  dumps true item = dumps true item' ↔ sort_keys item = sort_keys item'.
Proof.
  rewrite !dumps_sort_keys. split; [apply dumps_inj|by intros ->].
Qed.

(** X19. For items made of null, booleans, integers, strings of code
    points below 256, arrays and objects (the values of [json]; floats
    and wider characters are not among them): two items have the same
    comparison string exactly when they are the same value once the
    members of every object are put in key order. *)
Theorem canonical_form_exact :
  ∀ item item' : json,
    dumps true item = dumps true item' ↔ sort_keys item = sort_keys item'.
Proof.
  intros item item'. apply canonical_form_kernel.
Qed.

Lemma NoDup_fmap_same_kernel {A B C} (f : A → B) (g : A → C) (l : list A) :
  (∀ x y, f x = f y → g x = g y) → NoDup (g <$> l) → NoDup (f <$> l).
Proof.
  intros Hkernel. induction l as [|x l IH]; csimpl; [constructor|].
  intros [Hfresh Hl]%NoDup_cons. constructor; [|by apply IH].
  intros (y & Heq & Hin)%list_elem_of_fmap. apply Hfresh.
  rewrite (Hkernel _ _ Heq). by apply list_elem_of_fmap_2.
Qed.

(** X20. For items made of null, booleans, integers, strings of code
    points below 256, arrays and objects: in the aggregate no two items
    are the same value up to the order of members; and of two items in
    one response the second is dropped when it is the first up to the
    order of members, and kept otherwise. *)
Theorem deduplicate_exact :
  (∀ responses : list QueryAnalysisResponse,
     NoDup (sort_keys <$> data (_deduplicate responses)))
  ∧ (∀ item item' : json,
       (sort_keys item = sort_keys item' →
        _deduplicate [ {| data := [item; item'] |} ] = {| data := [item] |})
       ∧ (sort_keys item ≠ sort_keys item' →
          _deduplicate [ {| data := [item; item'] |} ] = {| data := [item; item'] |})).
Proof.
  split.
  - intros responses. rewrite deduplicate_eq. cbn [data].
    apply (NoDup_fmap_same_kernel _ canonical); [|apply first_occurrences_NoDup].
    intros x y Heq. unfold canonical. rewrite !dumps_sort_keys. by rewrite Heq.
  - intros item item'. rewrite deduplicate_eq, all_items_single.
    cbn [data first_occurrences]. rewrite filter_nil. split; intros Hsort.
    + rewrite filter_cons_False, filter_nil; [done|].
      intros Hne. apply Hne. unfold canonical. by apply canonical_form_kernel.
    + rewrite filter_cons_True, filter_nil; [done|].
      unfold canonical. intros Heq. apply Hsort. symmetry.
      by apply canonical_form_kernel.
Qed.

(** X21. For example outputs made of null, booleans, integers, strings
    of code points below 256, arrays and objects: the function-call
    payload synthesized for an example tells the example's output and
    the function name; different outputs or names never give the same
    payload. *)
Theorem function_call_inj :
  ∀ (example example' : QueryAnalysisExample) (function_name function_name' : string),
    function_call example function_name = function_call example' function_name'
    ↔ output example = output example' ∧ function_name = function_name'.
Proof.
  intros example example' function_name function_name'. unfold function_call. split.
  - remember (dumps false (JObject [("data", JArray (output example))])) as text eqn:Htext.
    remember (dumps false (JObject [("data", JArray (output example'))])) as text' eqn:Htext'.
    intros [= -> ->]. split; [|done].
    rewrite Htext in Htext'. apply dumps_inj in Htext'. by injection Htext'.
  - by intros [-> ->].
Qed.

Section Printable.

Lemma all_printable_app s t :
  all_printable (s +:+ t) = all_printable s && all_printable t.
Proof.
  induction s as [|c s IH]; [done|]. rewrite append_cons. simpl.
  by rewrite IH, andb_assoc.
Qed.

Lemma escape_char_printable c : all_printable (escape_char c) = true.
Proof. destruct c as [[] [] [] [] [] [] [] []]; reflexivity. Qed.

Lemma encode_basestring_ascii_printable s :
  all_printable (encode_basestring_ascii s) = true.
Proof.
  unfold encode_basestring_ascii. simpl. rewrite all_printable_app. simpl.
  rewrite andb_true_r. induction s as [|c s IH]; [done|]. simpl.
  by rewrite all_printable_app, escape_char_printable, IH.
Qed.

Lemma all_digits_printable digits :
  all_digits digits = true → all_printable digits = true.
Proof.
  induction digits as [|c digits IH]; [done|]. simpl.
  intros [Hc Hdigits]%andb_true_iff. rewrite IH by done.
  rewrite andb_true_r. revert Hc.
  destruct c as [[] [] [] [] [] [] [] []]; by vm_compute.
Qed.

Lemma pretty_Z_printable (n : Z) : all_printable (pretty n) = true.
Proof.
  destruct (pretty_Z_digits n) as (digits & Hdigits & _ & [-> | ->]).
  - by apply all_digits_printable.
  - simpl. by apply all_digits_printable.
Qed.

Lemma join_printable parts :
  Forall (fun part => all_printable part = true) parts →
  all_printable (join ", " parts) = true.
Proof.
  induction 1 as [|part parts Hpart Hparts IH]; [done|].
  destruct parts as [|next parts]; [done|].
  change (join ", " (part :: next :: parts))
    with (part +:+ ", " +:+ join ", " (next :: parts)).
  by rewrite !all_printable_app, Hpart, IH.
Qed.

Lemma dumps_printable sort obj : all_printable (dumps sort obj) = true.
Proof.
  induction obj as [|[]|n|s|items IH|members IH] using json_nested_ind; try done.
  - apply pretty_Z_printable.
  - apply encode_basestring_ascii_printable.
  - simpl. rewrite !all_printable_app, join_printable; [done|].
    apply Forall_forall. intros part (item & <- & Hin)%list_elem_of_In%in_map_iff.
    rewrite Forall_forall in IH. apply IH. by apply list_elem_of_In.
  - simpl. rewrite !all_printable_app, join_printable; [done|].
    apply Forall_forall. intros part (kv & <- & Hin)%list_elem_of_In%in_map_iff.
    assert (kv ∈ map (fun kv => (fst kv, dumps sort (snd kv))) members) as Hkv.
    { destruct sort; [|by apply list_elem_of_In].
      rewrite <- (proj1 (sort_items_sorted _)). by apply list_elem_of_In. }
    apply list_elem_of_In, in_map_iff in Hkv as (original & <- & Horiginal).
    unfold encode_member. cbn [fst snd].
    rewrite !all_printable_app, encode_basestring_ascii_printable.
    rewrite Forall_forall in IH. rewrite (IH original) by by apply list_elem_of_In.
    reflexivity.
Qed.

End Printable.

(** X22. For values made of null, booleans, integers, strings of code
    points below 256, arrays and objects: every serialization, with or
    without sorted keys, consists of printable ASCII characters only,
    whichever of those code points the strings hold; so do the
    comparison strings of [_deduplicate] and the [arguments] of every
    synthesized function call. *)
Theorem dumps_ascii_only :
  (∀ (sort : bool) (obj : json), all_printable (dumps sort obj) = true)
  ∧ (∀ (example : QueryAnalysisExample) (function_name : string),
       ∃ arguments,
         function_call example function_name
         = JObject [("arguments", JString arguments); ("name", JString function_name)]
         ∧ all_printable arguments = true).
Proof.
  split; [apply dumps_printable|].
  intros example function_name. eexists. split; [reflexivity|apply dumps_printable].
Qed.
